(** * Pointer gestures of package [gesture]: Click, Drag and Scroll

    A shallow embedding of [gesture/gesture.go].  Each recognizer is a
    record of its struct fields; the body of the [switch e.Kind] inside
    its [Update] loop is a step function on one pointer event, and
    [Update] folds that step over the queue in arrival order.  Two
    callers of these recognizers follow: [Draggable] of
    [widget/dnd.go] and [Enum] of [widget/enum.go]. *)

From Stdlib Require Import ZArith Bool List String Lia.
Import ListNotations.
Open Scope Z_scope.

(** ** Go [int] / [int64] arithmetic (two's complement, wrap-around) *)

Definition i64 (z : Z) : Z := (z + 2 ^ 63) mod 2 ^ 64 - 2 ^ 63.

Definition in_int64 (z : Z) : Prop := - 2 ^ 63 <= z < 2 ^ 63.

(** ** IEEE-754 binary32 ([float32]) *)

(** A finite [float32] is [man * 2 ^ exp]; every operation computes the
    exact result and rounds it to nearest-even with a 24-bit significand
    and the subnormal exponent floor [-149].  Values in the code below
    stay far from the overflow range, which is not modelled, nor are NaN
    and infinities. *)
Module F32.

Record t := mk { man : Z; exp : Z }.

(** [a >> k] rounded to nearest, ties to even ([a >= 0], [k > 0]). *)
Definition round_shift (a k : Z) : Z :=
  let q := Z.shiftr a k in
  let r := a - Z.shiftl q k in
  let half := 2 ^ (k - 1) in
  if half <? r then q + 1
  else if r =? half then (if Z.odd q then q + 1 else q)
  else q.

Definition round (m e : Z) : t :=
  if m =? 0 then mk 0 0 else
  let n := Z.log2 (Z.abs m) in
  let e' := Z.max (e + n + 1 - 24) (-149) in
  if e' <=? e then mk m e
  else mk (Z.sgn m * round_shift (Z.abs m) (e' - e)) e'.

(** Both operands scaled to the smaller exponent. *)
Definition common (x y : t) : Z * Z :=
  let e := Z.min (exp x) (exp y) in
  (man x * 2 ^ (exp x - e), man y * 2 ^ (exp y - e)).

Definition add (x y : t) : t :=
  let '(a, b) := common x y in round (a + b) (Z.min (exp x) (exp y)).

Definition neg (x : t) : t := mk (- man x) (exp x).

Definition sub (x y : t) : t := add x (neg y).

Definition mul (x y : t) : t := round (man x * man y) (exp x + exp y).

(** [float32(i)] for an integer [i]. *)
Definition of_int (z : Z) : t := round z 0.

(** The [float32] nearest to the rational [n / d] ([d > 0]): a decimal
    literal such as [0.3] is [of_ratio 3 10].  The quotient keeps at
    least 29 bits and a sticky bit for the discarded remainder. *)
Definition of_ratio (n d : Z) : t :=
  let k := Z.max 0 (Z.log2 d - Z.log2 (Z.abs n) + 30) in
  let a := Z.abs n * 2 ^ k in
  let sticky := if a mod d =? 0 then 0 else 1 in
  round (Z.sgn n * (2 * (a / d) + sticky)) (- k - 1).

Definition compare (x y : t) : comparison :=
  let '(a, b) := common x y in Z.compare a b.

Definition ltb (x y : t) : bool :=
  match compare x y with Lt => true | _ => false end.

(** Go's [==] on floats compares values. *)
Definition eqb (x y : t) : bool :=
  match compare x y with Eq => true | _ => false end.

(** [int(x)]: conversion truncates toward zero. *)
Definition trunc (x : t) : Z :=
  if 0 <=? exp x then man x * 2 ^ exp x
  else Z.quot (man x) (2 ^ (- exp x)).

(** [int(math.Round(float64(x)))]: the widening is exact and
    [math.Round] rounds half away from zero. *)
Definition round_int (x : t) : Z :=
  if 0 <=? exp x then man x * 2 ^ exp x
  else Z.sgn (man x) * ((Z.abs (man x) + 2 ^ (- exp x - 1)) / 2 ^ (- exp x)).

Definition zero : t := mk 0 0.

End F32.

(** ** Package [f32], [image], [pointer] *)

(** [f32.Point] *)
Record Point := mkPoint { X : F32.t; Y : F32.t }.

Definition Point_Sub (p q : Point) : Point :=
  mkPoint (F32.sub (X p) (X q)) (F32.sub (Y p) (Y q)).

(** [image.Point] *)
Record IPoint := mkIPoint { IX : Z; IY : Z }.

(** [f32.Point.Round] *)
Definition Point_Round (p : Point) : IPoint :=
  mkIPoint (F32.round_int (X p)) (F32.round_int (Y p)).

Module Pointer.

Inductive Kind := Cancel | Press | Release | Move | Drag | Enter | Leave | Scroll.

Definition Mouse : Z := 0.
Definition Touch : Z := 1.

Definition Shared : Z := 0.
Definition Foremost : Z := 1.
Definition Grabbed : Z := 2.

Definition ButtonPrimary : Z := 1.

(** [pointer.Event]; [time] is a [time.Duration] in nanoseconds. *)
Record Event := mkEvent {
  kind : Kind;
  source : Z;
  pointerID : Z;
  priority : Z;
  time : Z;
  buttons : Z;
  position : Point;
  scroll : Point;
  modifiers : Z
}.

End Pointer.

Import Pointer.

(** What [q.Events(tag)] yields: pointer events and events of other
    types, which every [Update] skips with [continue]. *)
Inductive QEvent := EvPointer (e : Pointer.Event) | EvOther.

(** [time.Millisecond] multiples are nanoseconds. *)
Definition doubleClickDuration : Z := 200 * 1000000.

(** [unit.Metric]: the package only uses its [Dp] conversion from
    device-independent units to an [int] number of pixels, which is
    supplied by the caller's metric. *)
Record Metric := mkMetric { Dp : F32.t -> Z }.

(** [const touchSlop = unit.Dp(3)] *)
Definition touchSlop : F32.t := F32.of_int 3.

(** ** [Click] *)

Module Click.

Definition KindPress : Z := 0.
Definition KindClick : Z := 1.
Definition KindCancel : Z := 2.

Record ClickEvent := mkClickEvent {
  Kind : Z;
  Position : IPoint;
  Source : Z;
  Modifiers : Z;
  NumClicks : Z
}.

(** [ClickEvent{Kind: KindCancel}]: the other fields are zero. *)
Definition cancelEvent : ClickEvent :=
  mkClickEvent KindCancel (mkIPoint 0 0) 0 0 0.

Record Click := mkClick {
  clickedAt : Z;
  clicks : Z;
  pressed : bool;
  hovered : bool;
  entered : bool;
  pid : Z
}.

Definition zero : Click := mkClick 0 0 false false false 0.

Definition set_clickedAt c v :=
  mkClick v (clicks c) (pressed c) (hovered c) (entered c) (pid c).
Definition set_clicks c v :=
  mkClick (clickedAt c) v (pressed c) (hovered c) (entered c) (pid c).
Definition set_pressed c v :=
  mkClick (clickedAt c) (clicks c) v (hovered c) (entered c) (pid c).
Definition set_hovered c v :=
  mkClick (clickedAt c) (clicks c) (pressed c) v (entered c) (pid c).
Definition set_entered c v :=
  mkClick (clickedAt c) (clicks c) (pressed c) (hovered c) v (pid c).
Definition set_pid c v :=
  mkClick (clickedAt c) (clicks c) (pressed c) (hovered c) (entered c) v.

(** One iteration of the loop of [Click.Update]: the new state and the
    events appended to [events]. *)
Definition step (c : Click) (e : Pointer.Event) : Click * list ClickEvent :=
  match kind e with
  | Release =>
      if negb (pressed c) || negb (pid c =? pointerID e) then (c, []) else
      let c := set_pressed c false in
      if negb (entered c) || hovered c then
        (c, [mkClickEvent KindClick (Point_Round (position e)) (source e)
               (modifiers e) (clicks c)])
      else (c, [cancelEvent])
  | Cancel =>
      let wasPressed := pressed c in
      let c := set_entered (set_hovered (set_pressed c false) false) false in
      (c, if wasPressed then [cancelEvent] else [])
  | Press =>
      if pressed c then (c, []) else
      if (source e =? Mouse) && negb (buttons e =? ButtonPrimary) then (c, []) else
      let c := if negb (hovered c) then set_pid c (pointerID e) else c in
      if negb (pid c =? pointerID e) then (c, []) else
      let c := set_pressed c true in
      let c := if i64 (time e - clickedAt c) <? doubleClickDuration
               then set_clicks c (i64 (clicks c + 1))
               else set_clicks c 1 in
      let c := set_clickedAt c (time e) in
      (c, [mkClickEvent KindPress (Point_Round (position e)) (source e)
             (modifiers e) (clicks c)])
  | Leave =>
      let c := if negb (pressed c) then set_pid c (pointerID e) else c in
      if pid c =? pointerID e then (set_hovered c false, []) else (c, [])
  | Enter =>
      let c := if negb (pressed c) then set_pid c (pointerID e) else c in
      if pid c =? pointerID e then (set_entered (set_hovered c true) true, [])
      else (c, [])
  | _ => (c, [])
  end.

(** [Click.Update] *)
Fixpoint Update (c : Click) (q : list QEvent) : Click * list ClickEvent :=
  match q with
  | [] => (c, [])
  | EvOther :: q' => Update c q'
  | EvPointer e :: q' =>
      let '(c1, es1) := step c e in
      let '(c2, es2) := Update c1 q' in
      (c2, es1 ++ es2)
  end.

(** The [Press] gate of [Update]: not already pressed, a mouse press
    only with the primary button, and the (possibly adopted) pointer id
    owned. *)
Definition press_accepted (c : Click) (e : Pointer.Event) : bool :=
  negb (pressed c)
  && negb ((source e =? Mouse) && negb (buttons e =? ButtonPrimary))
  && implb (hovered c) (pid c =? pointerID e).

End Click.

(** ** [Axis] *)

Definition Horizontal : Z := 0.
Definition Vertical : Z := 1.
Definition Both : Z := 2.

Definition set_position (e : Pointer.Event) (p : Point) : Pointer.Event :=
  mkEvent (kind e) (source e) (pointerID e) (priority e) (time e) (buttons e)
    p (scroll e) (modifiers e).

(** The same event from pointer [p]. *)
Definition set_pointerID (e : Pointer.Event) (p : Z) : Pointer.Event :=
  mkEvent (kind e) (source e) p (priority e) (time e) (buttons e)
    (position e) (scroll e) (modifiers e).

(** ** [Drag] *)

Module Drag.

Record Drag := mkDrag {
  dragging : bool;
  pressed : bool;
  pid : Z;
  start : Point;
  grab : bool
}.

Definition zero : Drag := mkDrag false false 0 (mkPoint F32.zero F32.zero) false.

Definition set_dragging d v := mkDrag v (pressed d) (pid d) (start d) (grab d).
Definition set_pressed d v := mkDrag (dragging d) v (pid d) (start d) (grab d).
Definition set_grab d v := mkDrag (dragging d) (pressed d) (pid d) (start d) v.

(** The axis switch of the [Drag] case: the orthogonal coordinate is
    replaced by the start position's. *)
Definition pin (axis : Z) (start : Point) (e : Pointer.Event) : Pointer.Event :=
  if axis =? Horizontal then set_position e (mkPoint (X (position e)) (Y start))
  else if axis =? Vertical then set_position e (mkPoint (X start) (Y (position e)))
  else e.

(** [diff.X*diff.X+diff.Y*diff.Y > float32(slop*slop)] with
    [diff := e.Position.Sub(d.start)] and [slop := cfg.Dp(touchSlop)],
    each operation rounded on its own (Go may fuse the multiply-add on
    some targets, which can only move the boundary by a rounding). *)
Definition exceeds (cfg : Metric) (start pos : Point) : bool :=
  let diff := Point_Sub pos start in
  let slop := Dp cfg touchSlop in
  F32.ltb (F32.of_int (i64 (slop * slop)))
    (F32.add (F32.mul (X diff) (X diff)) (F32.mul (Y diff) (Y diff))).

(** One iteration of the loop of [Drag.Update]: the new state and the
    forwarded events ([continue] forwards nothing). *)
Definition step (cfg : Metric) (axis : Z) (d : Drag) (e : Pointer.Event)
  : Drag * list Pointer.Event :=
  match kind e with
  | Press =>
      if negb ((buttons e =? ButtonPrimary) || (source e =? Touch)) then (d, []) else
      let d := set_pressed d true in
      if dragging d then (d, []) else
      (mkDrag true (pressed d) (pointerID e) (position e) (grab d), [e])
  | Pointer.Drag =>
      if negb (dragging d) || negb (pointerID e =? pid d) then (d, []) else
      let e := pin axis (start d) e in
      let d := if priority e <? Grabbed then
                 (if exceeds cfg (start d) (position e) then set_grab d true else d)
               else d in
      (d, [e])
  | Release | Cancel =>
      let d := set_pressed d false in
      if negb (dragging d) || negb (pointerID e =? pid d) then (d, []) else
      (set_grab (set_dragging d false) false, [e])
  | _ => (d, [e])
  end.

(** [Drag.Update] *)
Fixpoint Update (cfg : Metric) (d : Drag) (q : list QEvent) (axis : Z)
  : Drag * list Pointer.Event :=
  match q with
  | [] => (d, [])
  | EvOther :: q' => Update cfg d q' axis
  | EvPointer e :: q' =>
      let '(d1, es1) := step cfg axis d e in
      let '(d2, es2) := Update cfg d1 q' axis in
      (d2, es1 ++ es2)
  end.

End Drag.

(** ** [Scroll] *)

(** [fling.Estimate] *)
Record Estimate := mkEstimate { Velocity : F32.t; Distance : F32.t }.

Module Scroll.

(** What [Scroll] calls outside this package: the interface of package
    [internal/fling] ([Extrapolation] with its zero value, [Sample] and
    [Estimate]; [Animation] with its zero value, [Start] and [Tick]),
    [time.Time], and [runtime.GOOS == "android"]. *)
Class Env := {
  Time : Type;
  Extrapolation : Type;
  extrapolation0 : Extrapolation;
  Sample : Extrapolation -> Z -> F32.t -> Extrapolation;
  Estimate_of : Extrapolation -> Estimate;
  Animation : Type;
  animation0 : Animation;
  Start : Animation -> Metric -> Time -> F32.t -> Animation;
  Tick : Animation -> Time -> Animation * Z;
  android : bool
}.

Section Scroll.

Context {env : Env}.

Record Scroll := mkScroll {
  dragging : bool;
  axis : Z;
  estimator : Extrapolation;
  flinger : Animation;
  pid : Z;
  grab : bool;
  last : Z;
  scroll : F32.t
}.

Definition set_dragging s v := mkScroll v (axis s) (estimator s) (flinger s) (pid s) (grab s) (last s) (scroll s).
Definition set_axis s v := mkScroll (dragging s) v (estimator s) (flinger s) (pid s) (grab s) (last s) (scroll s).
Definition set_estimator s v := mkScroll (dragging s) (axis s) v (flinger s) (pid s) (grab s) (last s) (scroll s).
Definition set_flinger s v := mkScroll (dragging s) (axis s) (estimator s) v (pid s) (grab s) (last s) (scroll s).
Definition set_pid s v := mkScroll (dragging s) (axis s) (estimator s) (flinger s) v (grab s) (last s) (scroll s).
Definition set_grab s v := mkScroll (dragging s) (axis s) (estimator s) (flinger s) (pid s) v (last s) (scroll s).
Definition set_last s v := mkScroll (dragging s) (axis s) (estimator s) (flinger s) (pid s) (grab s) v (scroll s).
Definition set_scroll s v := mkScroll (dragging s) (axis s) (estimator s) (flinger s) (pid s) (grab s) (last s) v.

(** [Scroll.Stop] *)
Definition Stop (s : Scroll) : Scroll := set_flinger s animation0.

(** [Scroll.val] *)
Definition val (s : Scroll) (p : Point) : F32.t :=
  if axis s =? Horizontal then X p else Y p.

(** The shared cleanup of [Release] (by [fallthrough]) and [Cancel]. *)
Definition cancel (s : Scroll) : Scroll := set_grab (set_dragging s false) false.

(** One iteration of the loop of [Scroll.Update]: the new state and the
    amount added to [total]. *)
Definition step (cfg : Metric) (t : Time) (s : Scroll) (e : Pointer.Event)
  : Scroll * Z :=
  match kind e with
  | Press =>
      if dragging s then (s, 0) else
      if negb (source e =? Touch) && negb android then (s, 0) else
      let s := Stop s in
      let s := set_estimator s extrapolation0 in
      let v := val s (position e) in
      let s := set_last s (F32.round_int v) in
      let s := set_estimator s (Sample (estimator s) (time e) v) in
      let s := set_dragging s true in
      (set_pid s (pointerID e), 0)
  | Release =>
      if negb (pid s =? pointerID e) then (s, 0) else
      let fling := Estimate_of (estimator s) in
      let slop := F32.of_int (Dp cfg touchSlop) in
      let d := Distance fling in
      let s := if F32.ltb d (F32.neg slop) || F32.ltb slop d
               then set_flinger s (Start (flinger s) cfg t (Velocity fling))
               else s in
      (cancel s, 0)
  | Cancel => (cancel s, 0)
  | Pointer.Scroll =>
      let sc := if axis s =? Horizontal then F32.add (scroll s) (X (Pointer.scroll e))
                else if axis s =? Vertical then F32.add (scroll s) (Y (Pointer.scroll e))
                else scroll s in
      let iscroll := F32.trunc sc in
      (set_scroll s (F32.sub sc (F32.of_int iscroll)), iscroll)
  | Pointer.Drag =>
      if negb (dragging s) || negb (pid s =? pointerID e) then (s, 0) else
      let val := val s (position e) in
      let s := set_estimator s (Sample (estimator s) (time e) val) in
      let v := F32.round_int val in
      let dist := i64 (last s - v) in
      if priority e <? Grabbed then
        let slop := Dp cfg touchSlop in
        if (slop <=? dist) || (dist <=? i64 (- slop)) then (set_grab s true, 0)
        else (s, 0)
      else (set_last s v, dist)
  | _ => (s, 0)
  end.

(** The event loop of [Scroll.Update], from a running [total]. *)
Fixpoint run (cfg : Metric) (t : Time) (s : Scroll) (q : list QEvent) (total : Z)
  : Scroll * Z :=
  match q with
  | [] => (s, total)
  | EvOther :: q' => run cfg t s q' total
  | EvPointer e :: q' =>
      let '(s1, n) := step cfg t s e in
      run cfg t s1 q' (i64 (total + n))
  end.

(** [Scroll.Update] *)
Definition Update (cfg : Metric) (s : Scroll) (q : list QEvent) (t : Time) (ax : Z)
  : Scroll * Z :=
  if negb (axis s =? ax) then (set_axis s ax, 0) else
  let '(s, total) := run cfg t s q 0 in
  let '(fl, n) := Tick (flinger s) t in
  (set_flinger s fl, i64 (total + n)).

End Scroll.

End Scroll.

(** ** [String] methods *)

(** A Go call that returns a string or panics. *)
Inductive GoString := Ret (s : string) | Panic (msg : string).

(** [Axis.String]; [Axis] is a [uint8]. *)
Definition Axis_String (a : Z) : GoString :=
  if a =? Horizontal then Ret "Horizontal"
  else if a =? Vertical then Ret "Vertical"
  else Panic "invalid Axis".

(** [ClickKind.String]; [ClickKind] is a [uint8]. *)
Definition ClickKind_String (ct : Z) : GoString :=
  if ct =? Click.KindPress then Ret "TypePress"
  else if ct =? Click.KindClick then Ret "TypeClick"
  else if ct =? Click.KindCancel then Ret "TypeCancel"
  else Panic "invalid ClickType".

(** [ScrollState.String]; [ScrollState] is a [uint8]. *)
Definition StateIdle : Z := 0.
Definition StateDragging : Z := 1.
Definition StateFlinging : Z := 2.

Definition ScrollState_String (s : Z) : GoString :=
  if s =? StateIdle then Ret "StateIdle"
  else if s =? StateDragging then Ret "StateDragging"
  else if s =? StateFlinging then Ret "StateFlinging"
  else Panic "unreachable".

(** [Scroll.State]; [Active] is [fling.Animation.Active]. *)
Definition Scroll_State {env : Scroll.Env} (Active : Scroll.Animation -> bool)
  (s : Scroll.Scroll) : Z :=
  if Active (Scroll.flinger s) then StateFlinging
  else if Scroll.dragging s then StateDragging
  else StateIdle.

(** ** [Hover] *)

Module Hover.

Record Hover := mkHover { entered : bool; pid : Z }.

(** One iteration of the loop of [Hover.Update]. *)
Definition step (h : Hover) (e : Pointer.Event) : Hover :=
  match kind e with
  | Leave | Cancel =>
      if entered h && (pid h =? pointerID e) then mkHover false (pid h) else h
  | Enter =>
      let h := if negb (entered h) then mkHover (entered h) (pointerID e) else h in
      if pid h =? pointerID e then mkHover true (pid h) else h
  | _ => h
  end.

(** The event loop of [Hover.Update]. *)
Fixpoint run (h : Hover) (q : list QEvent) : Hover :=
  match q with
  | [] => h
  | EvOther :: q' => run h q'
  | EvPointer e :: q' => run (step h e) q'
  end.

(** [Hover.Update]: the new state and the reported [h.entered]. *)
Definition Update (h : Hover) (q : list QEvent) : Hover * bool :=
  let h := run h q in (h, entered h).

End Hover.

(** ** [widget.Draggable] (widget/dnd.go) *)

Module Draggable.

(** The field [Type] is [Type_] ([Type] is a keyword); [handle] only
    serves as an event tag and carries no data. *)
Record Draggable := mkDraggable {
  Type_ : string;
  drag : Drag.Drag;
  click : Point;
  pos : Point
}.

(** What [gtx.Queue.Events(&d.handle)] yields. *)
Inductive HandleEvent := RequestEvent (ty : string) | OtherHandleEvent.

(** The first loop of [Update], over the events of [d.drag.Update]: the
    new [d.click] and the local [pos]. *)
Fixpoint track (click pos : Point) (evs : list Pointer.Event) : Point * Point :=
  match evs with
  | [] => (click, pos)
  | ev :: r =>
      match kind ev with
      | Press => track (position ev) (mkPoint F32.zero F32.zero) r
      | Pointer.Drag | Release => track click (Point_Sub (position ev) click) r
      | _ => track click pos r
      end
  end.

(** The second loop of [Update]: the first [transfer.RequestEvent]. *)
Fixpoint request (evs : list HandleEvent) : string * bool :=
  match evs with
  | [] => (""%string, false)
  | RequestEvent ty :: _ => (ty, true)
  | OtherHandleEvent :: r => request r
  end.

(** [Draggable.Update]; [q] is what the queue yields for [&d.drag] and
    [hq] what it yields for [&d.handle]. *)
Definition Update (cfg : Metric) (d : Draggable) (q : list QEvent)
  (hq : list HandleEvent) : Draggable * (string * bool) :=
  let '(dr, evs) := Drag.Update cfg (drag d) q Both in
  let '(cl, p) := track (click d) (pos d) evs in
  (mkDraggable (Type_ d) dr cl p, request hq).

(** [Draggable.Dragging] and [Draggable.Pos] *)
Definition Dragging (d : Draggable) : bool := Drag.dragging (drag d).
Definition Pos (d : Draggable) : Point := pos d.

End Draggable.

(** ** [widget.Enum] (widget/enum.go) *)

Module Enum.

(** [enumKey]; [tag] only serves as an event tag. *)
Record enumKey := mkEnumKey { key : string; click : Click.Click }.

Record Enum := mkEnum {
  Value : string;
  hovered : string;
  hovering : bool;
  focus : string;
  focused : bool;
  keys : list enumKey
}.

Definition set_Value e v := mkEnum v (hovered e) (hovering e) (focus e) (focused e) (keys e).
Definition set_hovered e v := mkEnum (Value e) v (hovering e) (focus e) (focused e) (keys e).
Definition set_hovering e v := mkEnum (Value e) (hovered e) v (focus e) (focused e) (keys e).
Definition set_focus e v := mkEnum (Value e) (hovered e) (hovering e) v (focused e) (keys e).
Definition set_focused e v := mkEnum (Value e) (hovered e) (hovering e) (focus e) v (keys e).
Definition set_keys e v := mkEnum (Value e) (hovered e) (hovering e) (focus e) (focused e) v.

(** [key.Release], [key.NameReturn] and [key.NameSpace] *)
Definition KeyRelease : Z := 1.
Definition NameReturn : string := "⏎".
Definition NameSpace : string := "Space".

(** What [gtx.Events(&state.tag)] yields. *)
Inductive TagEvent :=
  | FocusEvent (Focus : bool)
  | KeyEvent (Name : string) (State : Z)
  | OtherTagEvent.

(** [gtx.Queue]: [None] for a nil queue, for which [gtx.Events] (and so
    [state.click.Update(gtx)]) yields nothing; otherwise the events for
    the click and the tag of the [i]-th key. *)
Record Queue := mkQueue {
  clickEvents : nat -> list QEvent;
  tagEvents : nat -> list TagEvent
}.

Definition clicks_of (q : option Queue) (i : nat) : list QEvent :=
  match q with None => [] | Some q => clickEvents q i end.

Definition tags_of (q : option Queue) (i : nat) : list TagEvent :=
  match q with None => [] | Some q => tagEvents q i end.

(** [Enum.index] *)
Fixpoint index (ks : list enumKey) (k : string) : option enumKey :=
  match ks with
  | [] => None
  | v :: r => if String.eqb (key v) k then Some v else index r k
  end.

(** The loop over the click events of key [k]: the new [e.Value] and
    [changed].  The [FocusOp] added on a mouse [KindPress] goes to the
    operation list, which is not modelled. *)
Fixpoint click_loop (k v : string) (changed : bool) (evs : list Click.ClickEvent)
  : string * bool :=
  match evs with
  | [] => (v, changed)
  | ev :: r =>
      if Click.Kind ev =? Click.KindClick then
        if negb (String.eqb k v) then click_loop k k true r
        else click_loop k v changed r
      else click_loop k v changed r
  end.

(** The loop over the tag events of key [k]. *)
Fixpoint tag_loop (k : string) (e : Enum) (changed : bool) (evs : list TagEvent)
  : Enum * bool :=
  match evs with
  | [] => (e, changed)
  | FocusEvent true :: r => tag_loop k (set_focus (set_focused e true) k) changed r
  | FocusEvent false :: r =>
      tag_loop k (if String.eqb k (focus e) then set_focused e false else e) changed r
  | KeyEvent name st :: r =>
      if negb (focused e) || negb (st =? KeyRelease) then tag_loop k e changed r
      else if negb (String.eqb name NameReturn) && negb (String.eqb name NameSpace)
      then tag_loop k e changed r
      else if negb (String.eqb k (Value e)) then tag_loop k (set_Value e k) true r
      else tag_loop k e changed r
  | OtherTagEvent :: r => tag_loop k e changed r
  end.

(** The loop over [e.keys] from index [i]: the updated keys, the enum
    and [changed]. *)
Fixpoint keys_loop (q : option Queue) (i : nat) (e : Enum) (changed : bool)
  (ks : list enumKey) : list enumKey * Enum * bool :=
  match ks with
  | [] => ([], e, changed)
  | st :: r =>
      let '(c, evs) := Click.Update (click st) (clicks_of q i) in
      let '(v, changed) := click_loop (key st) (Value e) changed evs in
      let '(e, changed) := tag_loop (key st) (set_Value e v) changed (tags_of q i) in
      let e := if Click.hovered c then set_hovering (set_hovered e (key st)) true else e in
      let '(r', e, changed) := keys_loop q (S i) e changed r in
      (mkEnumKey (key st) c :: r', e, changed)
  end.

(** [Enum.Update]: the new state and [changed]. *)
Definition Update (q : option Queue) (e : Enum) : Enum * bool :=
  let e := match q with None => set_focused e false | Some _ => e end in
  let e := set_hovering e false in
  let '(ks, e, changed) := keys_loop q 0 e false (keys e) in
  (set_keys e ks, changed).

(** [Enum.Hovered] and [Enum.Focused] *)
Definition Hovered (e : Enum) : string * bool := (hovered e, hovering e).
Definition Focused (e : Enum) : string * bool := (focus e, focused e).

(** The state part of [Enum.Layout]: [e.Update(gtx)], then the key [k]
    appended unless [e.index(k)] finds it. *)
Definition Layout (q : option Queue) (e : Enum) (k : string) : Enum :=
  let e := fst (Update q e) in
  match index (keys e) k with
  | Some _ => e
  | None => set_keys e (keys e ++ [mkEnumKey k Click.zero])
  end.

End Enum.

(** ** A sample [Scroll.Env]

    Used only to evaluate the theorems below at concrete inputs: an
    estimator that keeps every sample and reports as distance (and
    velocity) the displacement from the first to the last one, and an
    animation that records the velocities it was started with and moves
    nothing. *)
Definition sampleEnv : Scroll.Env := {|
  Scroll.Time := Z;
  Scroll.Extrapolation := list F32.t;
  Scroll.extrapolation0 := [];
  Scroll.Sample := fun ex _ v => ex ++ [v];
  Scroll.Estimate_of := fun ex =>
    let d := match ex with
             | [] => F32.zero
             | v0 :: _ => F32.sub (List.last ex F32.zero) v0
             end in
    mkEstimate d d;
  Scroll.Animation := list F32.t;
  Scroll.animation0 := [];
  Scroll.Start := fun a _ _ v => v :: a;
  Scroll.Tick := fun a _ => (a, 0);
  Scroll.android := false
|}.

(** A pointer event at integer coordinates [(x, y)] with no scroll and
    no modifiers. *)
Definition pev (k : Kind) (src id prio t btn x y : Z) : Pointer.Event :=
  mkEvent k src id prio t btn (mkPoint (F32.of_int x) (F32.of_int y))
    (mkPoint F32.zero F32.zero) 0.

(** A wheel event scrolling by [dx] along [X]. *)
Definition wheel (dx : F32.t) : Pointer.Event :=
  mkEvent Pointer.Scroll Mouse 0 Shared 0 0 (mkPoint F32.zero F32.zero)
    (mkPoint dx F32.zero) 0.

(** [Scroll] fed one wheel event per delta: the amount each adds to the
    total and the final accumulator. *)
Fixpoint wheel_steps {env : Scroll.Env} (cfg : Metric) (t : Scroll.Time)
  (s : Scroll.Scroll) (dxs : list F32.t) : list Z * F32.t :=
  match dxs with
  | [] => ([], Scroll.scroll s)
  | dx :: r =>
      let '(s1, n) := Scroll.step cfg t s (wheel dx) in
      let '(ns, rem) := wheel_steps cfg t s1 r in
      (n :: ns, rem)
  end.

(** A metric with [cfg.Dp(touchSlop) = 3]. *)
Definition metric1 : Metric := mkMetric F32.trunc.

(** ** Predicates on [Drag] steps *)

Module DragSpec.
Import Drag.

(** The event ends the gesture: a [Release] or [Cancel] from the owned
    pointer while dragging. *)
Definition ends (d : Drag.Drag) (e : Pointer.Event) : bool :=
  match kind e with
  | Release | Cancel => dragging d && (pointerID e =? pid d)
  | _ => false
  end.

(** The event is a [Drag] from the owned pointer below [Grabbed] priority
    whose (axis-pinned) squared displacement from the start exceeds the
    squared slop, as computed by the code. *)
Definition exceeding (cfg : Metric) (axis : Z) (d : Drag.Drag) (e : Pointer.Event) : bool :=
  match kind e with
  | Pointer.Drag =>
      dragging d && (pointerID e =? pid d) && (priority e <? Grabbed)
      && exceeds cfg (start d) (position (pin axis (start d) e))
  | _ => false
  end.

(** [P] holds at every pointer event of the queue, in the state in
    which [Update] processes it. *)
Fixpoint all_steps (P : Drag.Drag -> Pointer.Event -> bool) (cfg : Metric)
  (axis : Z) (d : Drag.Drag) (q : list QEvent) : bool :=
  match q with
  | [] => true
  | EvOther :: q' => all_steps P cfg axis d q'
  | EvPointer e :: q' => P d e && all_steps P cfg axis (fst (step cfg axis d e)) q'
  end.

End DragSpec.

(** ** Shapes of emitted event sequences *)

Module SeqSpec.

(** A sequence of [ClickEvent]s read from [st] ([Some n] while a press
    with count [n] is open): a [KindPress] opens a press, a [KindClick]
    carrying the open press's count or a [KindCancel] closes it, and
    nothing else may occur.  The result is the final [st], or [None] if
    the sequence breaks that shape. *)
Fixpoint click_shape (st : option Z) (evs : list Click.ClickEvent) : option (option Z) :=
  match evs with
  | [] => Some st
  | ev :: r =>
      match st with
      | None =>
          if Click.Kind ev =? Click.KindPress then click_shape (Some (Click.NumClicks ev)) r
          else None
      | Some n =>
          if (Click.Kind ev =? Click.KindClick) && (Click.NumClicks ev =? n)
             || (Click.Kind ev =? Click.KindCancel)
          then click_shape None r else None
      end
  end.

(** The open press of a [Click]. *)
Definition click_open (c : Click.Click) : option Z :=
  if Click.pressed c then Some (Click.clicks c) else None.

(** A sequence of forwarded pointer events read from [st] ([Some p]
    while a gesture of pointer [p] is open): a [Press] opens a gesture of
    its pointer, [Drag] events come from the open gesture's pointer, and
    a [Release] or [Cancel] of that pointer closes it; events of other
    kinds may occur anywhere. *)
Fixpoint drag_shape (st : option Z) (evs : list Pointer.Event) : option (option Z) :=
  match evs with
  | [] => Some st
  | e :: r =>
      match kind e, st with
      | Press, None => drag_shape (Some (pointerID e)) r
      | Pointer.Drag, Some p => if pointerID e =? p then drag_shape st r else None
      | Release, Some p | Cancel, Some p =>
          if pointerID e =? p then drag_shape None r else None
      | Press, Some _ | Pointer.Drag, None | Release, None | Cancel, None => None
      | _, _ => drag_shape st r
      end
  end.

(** The open gesture of a [Drag]. *)
Definition drag_open (d : Drag.Drag) : option Z :=
  if Drag.dragging d then Some (Drag.pid d) else None.

(** A queue event is not a [Leave] or [Cancel] of pointer [p]. *)
Definition keeps_pointer (p : Z) (ev : QEvent) : bool :=
  match ev with
  | EvPointer e =>
      match kind e with
      | Leave | Cancel => negb (pointerID e =? p)
      | _ => true
      end
  | EvOther => true
  end.

(** The invariant of a [Click] under which every count it reports is
    positive. *)
Definition click_count_ok (c : Click.Click) : Prop :=
  0 <= Click.clicks c /\ (Click.pressed c = true -> 1 <= Click.clicks c).

(** In [Enum.Update], [v] may differ from [V0] only once [changed] is
    set, and then it is one of the keys [K]. *)
Definition enum_value_ok (V0 : string) (K : list string) (v : string) (ch : bool) : Prop :=
  (ch = false -> v = V0) /\ (ch = true -> In v K).

End SeqSpec.

(** ** Sample states and events *)

(** A hovered, entered [Click] owning pointer 7, with one click at time 0. *)
Definition click_hovered : Click.Click := Click.mkClick 0 1 false true true 7.

(** The same [Click] while pressed. *)
Definition click_pressed : Click.Click := Click.mkClick 0 1 true true true 7.

(** A touch press and release of pointer 7 at 100 ms and 110 ms. *)
Definition press7 : Pointer.Event := pev Press Touch 7 Shared 100000000 0 5 5.
Definition release7 : Pointer.Event := pev Release Touch 7 Shared 110000000 0 5 5.

(** A [Drag] dragging pointer 1 from [(10,10)], without and with grab. *)
Definition drag_active : Drag.Drag :=
  Drag.mkDrag true true 1 (mkPoint (F32.of_int 10) (F32.of_int 10)) false.
Definition drag_grabbed : Drag.Drag :=
  Drag.mkDrag true true 1 (mkPoint (F32.of_int 10) (F32.of_int 10)) true.

(** [Drag] events of pointer 1: at [(0,0)], a small move to [(11,12)],
    and [Grabbed] moves to [(40,10)] and [(40,55)]; a touch press of
    pointer 1 at [(10,10)]. *)
Definition drag1_at0 : Pointer.Event := pev Pointer.Drag Touch 1 Shared 0 0 0 0.
Definition drag1_small : Pointer.Event := pev Pointer.Drag Touch 1 Shared 0 0 11 12.
Definition drag1_far : Pointer.Event := pev Pointer.Drag Touch 1 Grabbed 0 0 40 10.
Definition drag1_far_y : Pointer.Event := pev Pointer.Drag Touch 1 Shared 0 0 40 55.
Definition press1 : Pointer.Event := pev Press Touch 1 Shared 0 0 10 10.

(** Events of pointer 2, owned by no sample state. *)
Definition release2 : Pointer.Event := pev Release Touch 2 Shared 0 0 10 10.
Definition drag2 : Pointer.Event := pev Pointer.Drag Touch 2 Grabbed 0 0 50 50.

(** A release of pointer 1 and a wheel event of [0.3]. *)
Definition release1 : Pointer.Event := pev Release Touch 1 Shared 0 0 0 0.
Definition wheel03 : Pointer.Event := wheel (F32.of_ratio 3 10).

(** A horizontal [Scroll] dragging pointer 1 with [last = 3]. *)
Definition scroll_dragging : @Scroll.Scroll sampleEnv :=
  @Scroll.mkScroll sampleEnv true Horizontal [] [] 1 false 3 F32.zero.

(** An idle horizontal [Scroll] with an empty accumulator. *)
Definition scroll0 : @Scroll.Scroll sampleEnv :=
  @Scroll.mkScroll sampleEnv false Horizontal [] [] 0 false 0 F32.zero.

(** A [Scroll] whose drag of pointer 1 has ended ([dragging = false]) but
    whose estimator still holds the samples [0] and [10] of it. *)
Definition scroll_released : @Scroll.Scroll sampleEnv :=
  @Scroll.mkScroll sampleEnv false Horizontal [F32.of_int 0; F32.of_int 10] [] 1 false 10
    F32.zero.

(** An idle [Hover] and [Enter]/[Leave] events of pointers 3 and 4. *)
Definition hover0 : Hover.Hover := Hover.mkHover false 0.
Definition enter3 : Pointer.Event := pev Enter Mouse 3 Shared 0 0 1 1.
Definition enter4 : Pointer.Event := pev Enter Touch 4 Shared 0 0 2 2.
Definition leave4 : Pointer.Event := pev Leave Touch 4 Shared 0 0 2 2.

(** A [Cancel] of pointer 2. *)
Definition cancel2 : Pointer.Event := pev Cancel Touch 2 Shared 0 0 0 0.

(** An idle [Draggable] and one dragging pointer 1 from [(10,10)]. *)
Definition draggable0 : Draggable.Draggable :=
  Draggable.mkDraggable "text/plain" Drag.zero (mkPoint F32.zero F32.zero)
    (mkPoint F32.zero F32.zero).
Definition draggable_active : Draggable.Draggable :=
  Draggable.mkDraggable "text/plain" drag_active
    (mkPoint (F32.of_int 10) (F32.of_int 10)) (mkPoint (F32.of_int 2) (F32.of_int 3)).

(** [fling.Animation.Active] for the sample environment: an animation
    is active once a velocity has been recorded. *)
Definition sampleActive (a : @Scroll.Animation sampleEnv) : bool :=
  match a with [] => false | _ => true end.

(** An [Enum] with keys ["a"] and ["b"], value ["a"], nothing hovered
    nor focused, and a queue that clicks key ["b"] with pointer 1. *)
Definition enum_ab : Enum.Enum :=
  Enum.mkEnum "a" "" false "" false
    [Enum.mkEnumKey "a" Click.zero; Enum.mkEnumKey "b" Click.zero].
Definition click_b : Enum.Queue :=
  Enum.mkQueue
    (fun i => match i with
              | 1%nat => [EvPointer (pev Enter Mouse 1 Shared 0 0 5 5);
                          EvPointer (pev Press Mouse 1 Shared 0 ButtonPrimary 5 5);
                          EvPointer (pev Release Mouse 1 Shared 1000 0 5 5)]
              | _ => []
              end)
    (fun _ => []).

(** ** Helper lemmas *)

Lemma i64_small (z : Z) : in_int64 z -> i64 z = z.
Proof.
  unfold in_int64, i64; intros H.
  rewrite Z.mod_small by lia. lia.
Qed.

(** ** Click *)

Section ClickTheorems.
Import Click.

(** Claim C1.  An accepted [Press] (not pressed, past the mouse-button
    gate, pointer id owned) sets [pressed]; if [e.Time - clickedAt] (Go
    [int64] subtraction) is below 200 ms the click count goes up by
    exactly one, otherwise it restarts at 1; [clickedAt] becomes the
    press time and a single [KindPress] event carries the new count.
    Moreover [clickedAt] changes on no other event, so the window always
    runs from the previous accepted [Press], never from a [Release]. *)
Theorem click_press_count (c : Click) (e : Pointer.Event) :
  (kind e = Press -> press_accepted c e = true -> in_int64 (clicks c + 1) ->
   let '(c', evs) := step c e in
   pressed c' = true /\
   clicks c' = (if i64 (time e - clickedAt c) <? doubleClickDuration
                then clicks c + 1 else 1) /\
   clickedAt c' = time e /\
   evs = [mkClickEvent KindPress (Point_Round (position e)) (source e)
            (modifiers e) (clicks c')]) /\
  clickedAt (fst (step c e)) =
    (match kind e with
     | Press => if press_accepted c e then time e else clickedAt c
     | _ => clickedAt c
     end).
Proof.
  unfold step, press_accepted.
  split.
  - intros Hk Ha Hr. rewrite Hk.
    destruct (pressed c); [discriminate|].
    destruct ((source e =? Mouse) && negb (buttons e =? ButtonPrimary)); [discriminate|].
    simpl in Ha |- *.
    destruct (hovered c) eqn:Hh; simpl in Ha |- *.
    + rewrite Ha. simpl.
      destruct (i64 (time e - clickedAt c) <? doubleClickDuration);
        simpl; rewrite ?i64_small by exact Hr; auto.
    + rewrite Z.eqb_refl. simpl.
      destruct (i64 (time e - clickedAt c) <? doubleClickDuration);
        simpl; rewrite ?i64_small by exact Hr; auto.
  - destruct (kind e); simpl; try reflexivity.
    + destruct (pressed c); simpl; [reflexivity|].
      destruct ((source e =? Mouse) && negb (buttons e =? ButtonPrimary)); simpl; [reflexivity|].
      destruct (hovered c); simpl.
      * destruct (pid c =? pointerID e); simpl; [|reflexivity].
        destruct (i64 (time e - clickedAt c) <? doubleClickDuration); reflexivity.
      * rewrite Z.eqb_refl. simpl.
        destruct (i64 (time e - clickedAt c) <? doubleClickDuration); reflexivity.
    + destruct (negb (pressed c) || negb (pid c =? pointerID e)); simpl; [reflexivity|].
      destruct (negb (entered c) || hovered c); reflexivity.
    + destruct (negb (pressed c)); simpl;
        destruct (_ =? _); reflexivity.
    + destruct (negb (pressed c)); simpl;
        destruct (_ =? _); reflexivity.
Qed.

(** Claim C2.  A [Release] from the owned pointer while pressed clears
    [pressed] (nothing else changes) and emits exactly one event:
    [KindClick] with the current count when the pointer is hovered or no
    [Enter] was ever seen, [KindCancel] otherwise.  A [Release] while not
    pressed or from another pointer changes nothing and emits nothing. *)
Theorem click_release (c : Click) (e : Pointer.Event) :
  kind e = Release ->
  (pressed c = true -> pid c = pointerID e ->
   step c e =
     (set_pressed c false,
      [if negb (entered c) || hovered c
       then mkClickEvent KindClick (Point_Round (position e)) (source e)
              (modifiers e) (clicks c)
       else cancelEvent])) /\
  (pressed c = false \/ pid c <> pointerID e -> step c e = (c, [])).
Proof.
  intros Hk. unfold step. rewrite Hk. split.
  - intros Hp Hid. rewrite Hp, Hid, Z.eqb_refl. simpl.
    destruct (negb (entered c) || hovered c); reflexivity.
  - intros [Hp | Hid].
    + rewrite Hp. reflexivity.
    + apply Z.eqb_neq in Hid. rewrite Hid, orb_true_r. reflexivity.
Qed.

End ClickTheorems.

(** Claim C7.  A [Cancel] is handled whatever its pointer id.  [Click]
    clears [pressed], [hovered] and [entered] (keeping the rest) and emits
    one [KindCancel] exactly when a press was in progress; [Scroll] clears
    [dragging] and [grab] and adds nothing to the total. *)
Theorem cancel_absolute :
  (forall (c : Click.Click) (e : Pointer.Event),
     kind e = Cancel ->
     Click.step c e =
       (Click.mkClick (Click.clickedAt c) (Click.clicks c) false false false
          (Click.pid c),
        if Click.pressed c then [Click.cancelEvent] else [])) /\
  (forall (env : Scroll.Env) (cfg : Metric) (t : Scroll.Time)
          (s : Scroll.Scroll) (e : Pointer.Event),
     kind e = Cancel ->
     Scroll.dragging (fst (Scroll.step cfg t s e)) = false /\
     Scroll.grab (fst (Scroll.step cfg t s e)) = false /\
     snd (Scroll.step cfg t s e) = 0).
Proof.
  split.
  - intros c e Hk. unfold Click.step. rewrite Hk. reflexivity.
  - intros env cfg t s e Hk. unfold Scroll.step. rewrite Hk.
    repeat split.
Qed.

(** ** String methods *)

(** Claim C9.  [Axis.String] panics on [Both], a declared [Axis]
    constant that [Drag.Update] accepts. *)
Theorem Axis_String_Both : Axis_String Both = Panic "invalid Axis".
Proof. reflexivity. Qed.

(** ** Drag *)

Module DragFacts.
Import Drag DragSpec.

Lemma Update_cons cfg axis d e q :
  fst (Update cfg d (EvPointer e :: q) axis) = fst (Update cfg (fst (step cfg axis d e)) q axis).
Proof.
  simpl. destruct (step cfg axis d e) as [d1 es1]. simpl.
  destruct (Update cfg d1 q axis). reflexivity.
Qed.

Lemma Update_out_cons cfg axis d e q :
  snd (Update cfg d (EvPointer e :: q) axis) =
  snd (step cfg axis d e) ++ snd (Update cfg (fst (step cfg axis d e)) q axis).
Proof.
  simpl. destruct (step cfg axis d e) as [d1 es1]. simpl.
  destruct (Update cfg d1 q axis). reflexivity.
Qed.

Lemma pin_priority axis st e : priority (pin axis st e) = priority e.
Proof. unfold pin. destruct (axis =? Horizontal); [|destruct (axis =? Vertical)]; reflexivity. Qed.

Lemma pin_kind axis st e : kind (pin axis st e) = kind e.
Proof. unfold pin. destruct (axis =? Horizontal); [|destruct (axis =? Vertical)]; reflexivity. Qed.

Lemma pin_pointerID axis st e : pointerID (pin axis st e) = pointerID e.
Proof. unfold pin. destruct (axis =? Horizontal); [|destruct (axis =? Vertical)]; reflexivity. Qed.

(** One step on the grab flag: while it is set only an ending event
    clears it; while it is clear only an exceeding [Drag] sets it. *)
Lemma step_grab cfg axis d e :
  grab (fst (step cfg axis d e)) =
  if grab d then negb (ends d e) else exceeding cfg axis d e.
Proof.
  destruct d as [dr pr pd st gr]. unfold step, ends, exceeding.
  destruct (pointerID e =? pd) eqn:Hp.
  all: destruct dr, gr, (kind e); cbn -[exceeds pin];
    rewrite ?pin_priority, ?Hp; cbn -[exceeds pin].
  all: repeat match goal with
              | |- context [if ?b then _ else _] => destruct b
              end; reflexivity.
Qed.

(** One step keeps [dragging] and [start] on a [Drag] event. *)
Lemma step_drag_keeps cfg axis d e :
  kind e = Pointer.Drag ->
  dragging (fst (step cfg axis d e)) = dragging d /\
  start (fst (step cfg axis d e)) = start d.
Proof.
  intros Hk. destruct d as [dr pr pd st gr]. unfold step. rewrite Hk.
  destruct (pointerID e =? pd) eqn:Hp;
  destruct dr; cbn -[exceeds pin]; rewrite ?pin_priority, ?Hp; cbn -[exceeds pin];
    repeat match goal with
           | |- context [if ?b then _ else _] => destruct b
           end; split; reflexivity.
Qed.

(** The events forwarded for a [Drag] event. *)
Lemma step_drag_out cfg axis d e :
  kind e = Pointer.Drag ->
  snd (step cfg axis d e) =
  if dragging d && (pointerID e =? pid d) then [pin axis (start d) e] else [].
Proof.
  intros Hk. destruct d as [dr pr pd st gr]. unfold step. rewrite Hk.
  destruct (pointerID e =? pd) eqn:Hp;
  destruct dr; cbn -[exceeds pin]; rewrite ?pin_priority, ?Hp; cbn -[exceeds pin];
    repeat match goal with
           | |- context [if ?b then _ else _] => destruct b
           end; reflexivity.
Qed.

(** While dragging, a queue of [Drag] events only forwards events whose
    [Y] is the start's, under [Horizontal]. *)
Lemma horizontal_run cfg d q :
  dragging d = true ->
  Forall (fun e => kind e = Pointer.Drag) q ->
  forall e', In e' (snd (Update cfg d (map EvPointer q) Horizontal)) ->
  Y (position e') = Y (start d).
Proof.
  revert d. induction q as [|e q IH]; intros d Hd Hq e' Hin.
  - destruct Hin.
  - inversion Hq as [|? ? Hk Hq']; subst.
    simpl map in Hin. rewrite Update_out_cons in Hin.
    apply in_app_or in Hin as [Hin | Hin].
    + rewrite step_drag_out in Hin by exact Hk.
      rewrite Hd in Hin.
      destruct (pointerID e =? pid d); [|destruct Hin].
      destruct Hin as [<- | []]. reflexivity.
    + destruct (step_drag_keeps cfg Horizontal d e Hk) as [Hd' Hs'].
      rewrite <- Hs'. apply (IH _ (eq_trans Hd' Hd) Hq' e' Hin).
Qed.

(** Claim C4.  During a gesture the grab request is a one-way latch.
    (1) One step: while [grab] is clear it becomes set exactly on a
    [Drag] from the owned pointer below [Grabbed] whose squared
    displacement, computed as the code does, exceeds the squared slop;
    while set it is cleared exactly by a [Release] or [Cancel] from the
    owned pointer while dragging.  (2) Over any queue in which no such
    [Drag] exceeds the slop, a clear flag stays clear.  (3) Over any queue
    with no ending [Release]/[Cancel], a set flag stays set. *)
Theorem drag_grab_latch (cfg : Metric) (axis : Z) :
  (forall d e,
     grab (fst (step cfg axis d e)) =
     if grab d then negb (ends d e) else exceeding cfg axis d e) /\
  (forall d q,
     grab d = false ->
     all_steps (fun d e => negb (exceeding cfg axis d e)) cfg axis d q = true ->
     grab (fst (Update cfg d q axis)) = false) /\
  (forall d q,
     grab d = true ->
     all_steps (fun d e => negb (ends d e)) cfg axis d q = true ->
     grab (fst (Update cfg d q axis)) = true).
Proof.
  split; [exact (step_grab cfg axis)|split].
  - intros d q; revert d. induction q as [|[e|] q IH]; intros d Hg Hall.
    + exact Hg.
    + rewrite Update_cons. simpl in Hall. apply andb_prop in Hall as [He Hall].
      apply IH; [|exact Hall].
      rewrite step_grab, Hg. apply negb_true_iff, He.
    + apply IH; assumption.
  - intros d q; revert d. induction q as [|[e|] q IH]; intros d Hg Hall.
    + exact Hg.
    + rewrite Update_cons. simpl in Hall. apply andb_prop in Hall as [He Hall].
      apply IH; [|exact Hall].
      rewrite step_grab, Hg. exact He.
    + apply IH; assumption.
Qed.

(** Claim C5.  A [Drag] event from the owned pointer while dragging is
    forwarded once, with [Y] pinned to the start under [Horizontal], [X]
    pinned under [Vertical] and unchanged under [Both]; other [Drag]
    events are dropped.  In particular, after an accepted [Press] at
    [(10,10)] from the idle state, every forwarded [Drag] event of a
    queue of [Drag] events reports [Y = 10] under [Horizontal]. *)
Theorem drag_axis_pin (cfg : Metric) :
  (forall axis d e,
     kind e = Pointer.Drag ->
     snd (step cfg axis d e) =
       (if dragging d && (pointerID e =? pid d) then [pin axis (start d) e] else []) /\
     kind (pin axis (start d) e) = Pointer.Drag /\
     (axis = Horizontal ->
        position (pin axis (start d) e) = mkPoint (X (position e)) (Y (start d))) /\
     (axis = Vertical ->
        position (pin axis (start d) e) = mkPoint (X (start d)) (Y (position e))) /\
     (axis = Both -> pin axis (start d) e = e)) /\
  (forall p q,
     kind p = Press ->
     (buttons p = ButtonPrimary \/ source p = Touch) ->
     position p = mkPoint (F32.of_int 10) (F32.of_int 10) ->
     Forall (fun e => kind e = Pointer.Drag) q ->
     forall e', In e' (snd (Update cfg zero (map EvPointer (p :: q)) Horizontal)) ->
     kind e' = Pointer.Drag -> Y (position e') = F32.of_int 10).
Proof.
  split.
  - intros axis d e Hk. split; [exact (step_drag_out cfg axis d e Hk)|].
    split; [rewrite pin_kind; exact Hk|].
    repeat split; intros ->; reflexivity.
  - intros p q Hk Hb Hpos Hq e' Hin Hk'.
    simpl map in Hin. rewrite Update_out_cons in Hin.
    assert (Hgate : (buttons p =? ButtonPrimary) || (source p =? Touch) = true).
    { destruct Hb as [-> | ->]; rewrite Z.eqb_refl; [reflexivity|apply orb_true_r]. }
    unfold step in Hin.
    rewrite Hk, Hgate in Hin. simpl in Hin.
    destruct Hin as [<- | Hin].
    + rewrite Hk in Hk'. discriminate.
    + rewrite (horizontal_run cfg _ q (eq_refl : dragging (mkDrag true true (pointerID p) (position p) false) = true) Hq e' Hin).
      simpl. rewrite Hpos. reflexivity.
Qed.

End DragFacts.

(** ** Scroll *)

Module ScrollFacts.
Import Scroll.

Lemma i64_range (z : Z) : in_int64 (i64 z).
Proof.
  unfold in_int64, i64.
  pose proof (Z.mod_pos_bound (z + 2 ^ 63) (2 ^ 64) ltac:(lia)). lia.
Qed.

(** [dist >= slop || -slop >= dist] (Go [int] negation) is
    [|dist| >= slop]. *)
Lemma slop_test (slop x : Z) :
  in_int64 slop -> in_int64 x ->
  (slop <=? x) || (x <=? i64 (- slop)) = (slop <=? Z.abs x).
Proof.
  intros Hs Hx.
  destruct (Z.eq_dec slop (- 2 ^ 63)) as [-> | Hne].
  - replace (i64 (- - 2 ^ 63)) with (- 2 ^ 63) by reflexivity.
    unfold in_int64 in Hx.
    destruct (Z.leb_spec (- 2 ^ 63) x), (Z.leb_spec x (- 2 ^ 63)),
      (Z.leb_spec (- 2 ^ 63) (Z.abs x)); simpl; lia.
  - rewrite i64_small by (unfold in_int64 in *; lia).
    destruct (Z.leb_spec slop x), (Z.leb_spec x (- slop)),
      (Z.leb_spec slop (Z.abs x)); simpl; lia.
Qed.

(** Claim C3 (as the code has it).  A [Drag] from the owned pointer while
    dragging always feeds the estimator.  Below [Grabbed] priority it adds
    nothing and keeps [last]; the grab request is set when the integer
    distance [|last - v|] reaches the slop ([>=], not [>]) and is kept
    otherwise.  At [Grabbed] priority it adds [last - v] and records [v]. *)
Theorem scroll_drag_grab (env : Env) (cfg : Metric) (t : Time) (s : Scroll)
  (e : Pointer.Event) :
  kind e = Pointer.Drag -> dragging s = true -> pid s = pointerID e ->
  in_int64 (Dp cfg touchSlop) ->
  let v := F32.round_int (val s (position e)) in
  let dist := i64 (last s - v) in
  estimator (fst (step cfg t s e)) = Sample (estimator s) (time e) (val s (position e)) /\
  (priority e < Grabbed ->
     snd (step cfg t s e) = 0 /\ last (fst (step cfg t s e)) = last s /\
     grab (fst (step cfg t s e)) = grab s || (Dp cfg touchSlop <=? Z.abs dist)) /\
  (Grabbed <= priority e ->
     snd (step cfg t s e) = dist /\ last (fst (step cfg t s e)) = v /\
     grab (fst (step cfg t s e)) = grab s).
Proof.
  intros Hk Hd Hp Hs v dist.
  unfold step. rewrite Hk, Hd, Hp, Z.eqb_refl. simpl.
  destruct (Z.ltb_spec (priority e) Grabbed) as [Hlt | Hge].
  - rewrite (slop_test _ _ Hs (i64_range _)). fold v dist.
    destruct (Dp cfg touchSlop <=? Z.abs dist); simpl;
      (split; [reflexivity|split; [|intros; lia]]);
      intros _; (split; [reflexivity|split; [reflexivity|]]);
      destruct (grab s); reflexivity.
  - simpl. split; [reflexivity|]. split; [intros; lia|].
    intros _. repeat split.
Qed.

(** Claim C6 (as the code has it).  A wheel event adds the configured
    axis's [float32] delta to the [float32] accumulator (nothing under
    [Both]), contributes the accumulator truncated to [int], and keeps
    [acc - float32(int(acc))].  Concretely, from an empty accumulator
    under [Horizontal], three deltas [0.3] contribute [0, 0, 0] and leave
    [15099495 * 2^-24] (about 0.90000004, the [float32] sum of three
    [float32(0.3)]); a fourth contributes [1] and leaves
    [1677722 * 2^-23] (about 0.20000005). *)
Theorem scroll_wheel_accumulate (env : Env) (cfg : Metric) (t : Time) :
  (forall s e,
     kind e = Pointer.Scroll ->
     let acc := if axis s =? Horizontal then F32.add (scroll s) (X (Pointer.scroll e))
                else if axis s =? Vertical then F32.add (scroll s) (Y (Pointer.scroll e))
                else scroll s in
     step cfg t s e = (set_scroll s (F32.sub acc (F32.of_int (F32.trunc acc))), F32.trunc acc)) /\
  (forall s,
     axis s = Horizontal -> scroll s = F32.zero ->
     wheel_steps cfg t s (repeat (F32.of_ratio 3 10) 3) = ([0; 0; 0], F32.mk 15099495 (-24)) /\
     wheel_steps cfg t s (repeat (F32.of_ratio 3 10) 4) = ([0; 0; 0; 1], F32.mk 1677722 (-23))).
Proof.
  split.
  - intros s e Hk acc. unfold step. rewrite Hk. reflexivity.
  - intros [dr ax es fl id gr la sc] Ha Hs. simpl in Ha, Hs. subst ax sc.
    split; vm_compute; reflexivity.
Qed.

(** Claim C10.  A [Release] is gated on the pointer id alone: whether or
    not a drag is active, it re-estimates over the samples the estimator
    holds, starts a fling with the estimated velocity when the estimated
    distance is beyond the slop in either direction, and clears
    [dragging] and [grab].  No event other than [Press] resets the
    estimator: the others keep it or add one sample to it. *)
Theorem scroll_release_ungated (env : Env) (cfg : Metric) (t : Time) :
  (forall s e,
     kind e = Release -> pid s = pointerID e ->
     let fling := Estimate_of (estimator s) in
     let slop := F32.of_int (Dp cfg touchSlop) in
     step cfg t s e =
       (mkScroll false (axis s) (estimator s)
          (if F32.ltb (Distance fling) (F32.neg slop) || F32.ltb slop (Distance fling)
           then Start (flinger s) cfg t (Velocity fling) else flinger s)
          (pid s) false (last s) (scroll s), 0)) /\
  (forall s e,
     kind e <> Press ->
     estimator (fst (step cfg t s e)) = estimator s \/
     estimator (fst (step cfg t s e)) = Sample (estimator s) (time e) (val s (position e))).
Proof.
  split.
  - intros s e Hk Hp fling slop. unfold step. rewrite Hk.
    replace (pid s =? pointerID e) with true by (rewrite Hp; symmetry; apply Z.eqb_refl).
    simpl.
    fold fling slop.
    destruct (F32.ltb (Distance fling) (F32.neg slop) || F32.ltb slop (Distance fling));
      reflexivity.
  - intros s e Hk. unfold step.
    destruct (kind e); try (left; reflexivity); [congruence| |].
    + destruct (negb (pid s =? pointerID e)); [left; reflexivity|].
      destruct (_ || _); left; reflexivity.
    + destruct (negb (dragging s) || negb (pid s =? pointerID e)); [left; reflexivity|].
      cbv zeta.
      destruct (priority e <? Grabbed); [destruct (_ || _)|]; right; reflexivity.
Qed.

End ScrollFacts.

(** ** Pointer ownership *)

(** Claim C8 (as the code has it).  [Click], once pressed, ignores every
    event but [Cancel] from another pointer.  [Drag], while dragging,
    forwards nothing for a [Press], [Drag] or [Release] from another
    pointer and changes no field but [pressed]: such a [Release] clears
    it, such a [Press] with the primary button or from touch sets it,
    any other such [Press] and such a [Drag] change nothing.  [Scroll],
    while dragging, ignores a [Press], [Drag] or [Release] from another
    pointer.  Wheel [Scroll] events are not gated on the pointer id:
    [Drag] forwards them whatever their pointer and leaves its state
    unchanged, and [Scroll] treats them the same whatever their pointer. *)
Theorem owned_pointer_filter :
  (forall (c : Click.Click) (e : Pointer.Event),
     Click.pressed c = true -> pointerID e <> Click.pid c -> kind e <> Cancel ->
     Click.step c e = (c, [])) /\
  (forall (cfg : Metric) (axis : Z) (d : Drag.Drag) (e : Pointer.Event),
     Drag.dragging d = true -> pointerID e <> Drag.pid d ->
     kind e = Press \/ kind e = Pointer.Drag \/ kind e = Release ->
     snd (Drag.step cfg axis d e) = [] /\
     (kind e = Release -> fst (Drag.step cfg axis d e) = Drag.set_pressed d false) /\
     (kind e = Press ->
        fst (Drag.step cfg axis d e) =
          if (buttons e =? ButtonPrimary) || (source e =? Touch)
          then Drag.set_pressed d true else d) /\
     (kind e = Pointer.Drag -> fst (Drag.step cfg axis d e) = d)) /\
  (forall (env : Scroll.Env) (cfg : Metric) (t : Scroll.Time) (s : Scroll.Scroll)
          (e : Pointer.Event),
     Scroll.dragging s = true -> pointerID e <> Scroll.pid s ->
     kind e = Press \/ kind e = Pointer.Drag \/ kind e = Release ->
     Scroll.step cfg t s e = (s, 0)) /\
  (forall (cfg : Metric) (axis : Z) (d : Drag.Drag) (e : Pointer.Event),
     kind e = Pointer.Scroll -> Drag.step cfg axis d e = (d, [e])) /\
  (forall (env : Scroll.Env) (cfg : Metric) (t : Scroll.Time) (s : Scroll.Scroll)
          (e : Pointer.Event) (p : Z),
     kind e = Pointer.Scroll ->
     Scroll.step cfg t s (set_pointerID e p) = Scroll.step cfg t s e).
Proof.
  split; [|split; [|split; [|split]]].
  - intros c e Hp Hid Hk.
    assert (H1 : (Click.pid c =? pointerID e) = false) by (apply Z.eqb_neq; congruence).
    unfold Click.step. rewrite Hp. simpl.
    destruct (kind e); try reflexivity; [congruence| |rewrite H1; reflexivity..].
    rewrite H1. reflexivity.
  - intros cfg axis [dr pr pd st gr] e Hd Hid Hk. simpl in Hd, Hid. subst dr.
    assert (H1 : (pointerID e =? pd) = false) by (apply Z.eqb_neq; exact Hid).
    unfold Drag.step.
    destruct Hk as [Hk | [Hk | Hk]]; rewrite Hk; cbn -[Drag.exceeds Drag.pin].
    + destruct (_ || _); cbn; repeat split; intros; first [discriminate | reflexivity].
    + rewrite H1. cbn. repeat split; intros; first [discriminate | reflexivity].
    + rewrite H1. cbn. repeat split; intros; first [discriminate | reflexivity].
  - intros env cfg t s e Hd Hid Hk.
    assert (H1 : (Scroll.pid s =? pointerID e) = false) by (apply Z.eqb_neq; congruence).
    unfold Scroll.step.
    destruct Hk as [Hk | [Hk | Hk]]; rewrite Hk; rewrite ?Hd, ?H1; reflexivity.
  - intros cfg axis d e Hk. unfold Drag.step. rewrite Hk. reflexivity.
  - intros env cfg t s e p Hk. unfold Scroll.step. cbn [kind set_pointerID].
    rewrite Hk. reflexivity.
Qed.

(** ** Further properties: [Click] *)

Module ClickFacts.
Import Click SeqSpec.

Lemma Click_Update_cons c e q :
  Update c (EvPointer e :: q) =
  (fst (Update (fst (step c e)) q), snd (step c e) ++ snd (Update (fst (step c e)) q)).
Proof.
  simpl. destruct (step c e) as [c1 es1]. cbn [fst snd].
  destruct (Update c1 q). reflexivity.
Qed.

Lemma click_shape_app st l1 l2 :
  click_shape st (l1 ++ l2) =
  match click_shape st l1 with Some st' => click_shape st' l2 | None => None end.
Proof.
  revert st. induction l1 as [|ev l1 IH]; intros st; [reflexivity|].
  simpl. destruct st as [n|].
  - destruct (_ || _); [apply IH | reflexivity].
  - destruct (Kind ev =? KindPress); [apply IH | reflexivity].
Qed.

Ltac eqb_refl_all :=
  repeat match goal with
         | H : context [?x =? ?x] |- _ => rewrite Z.eqb_refl in H
         | |- context [?x =? ?x] => rewrite Z.eqb_refl
         end.

Ltac split_ifs :=
  repeat (eqb_refl_all; cbn in *; try discriminate;
          match goal with
          | |- context [if ?b then _ else _] => destruct b eqn:?
          end).

Lemma click_step_shape c e :
  click_shape (click_open c) (snd (step c e)) = Some (click_open (fst (step c e))).
Proof.
  destruct c as [ca cl pr hv en pd]. unfold step, click_open.
  unfold set_clickedAt, set_clicks, set_pressed, set_hovered, set_entered, set_pid.
  destruct (kind e); split_ifs; reflexivity.
Qed.

Lemma step_count c e :
  click_count_ok c -> clicks c + 1 < 2 ^ 63 ->
  click_count_ok (fst (step c e)) /\ clicks (fst (step c e)) <= clicks c + 1 /\
  Forall (fun ev => Kind ev = KindCancel \/ 1 <= NumClicks ev) (snd (step c e)).
Proof.
  destruct c as [ca cl pr hv en pd]. unfold click_count_ok, step. cbn.
  unfold set_clickedAt, set_clicks, set_pressed, set_hovered, set_entered, set_pid.
  intros [H0 H1] Hb.
  destruct pr, (kind e); split_ifs.
  all: try specialize (H1 eq_refl); cbn.
  all: try rewrite i64_small by (unfold in_int64; lia).
  all: split; [split; [lia | first [exact H1 | intros; lia]] | split; [lia|]].
  all: repeat (apply Forall_cons; [first [left; reflexivity | right; cbn; lia]|]).
  all: apply Forall_nil.
Qed.

(** [Click.Update] emits well-formed gestures, across any number of
    frames: starting from its current open press (if [pressed], with
    count [clicks]), each [KindPress] opens a press and is followed by
    exactly one [KindClick] carrying the same [NumClicks], or by one
    [KindCancel], before the next [KindPress]; at the end the open press
    is the one the new state records. *)
Theorem click_update_shape (c : Click) (q : list QEvent) :
  click_shape (click_open c) (snd (Update c q)) = Some (click_open (fst (Update c q))).
Proof.
  revert c. induction q as [|[e|] q IH]; intros c; [reflexivity| |apply IH].
  rewrite Click_Update_cons. cbn [fst snd].
  rewrite click_shape_app, click_step_shape. apply IH.
Qed.

(** Every [KindPress] and [KindClick] event of [Click.Update] carries a
    positive [NumClicks], from any state whose count is not negative and
    positive while pressed (the zero [Click] among them), as long as the
    count cannot reach the [int] limit within the queue.  The state keeps
    that invariant. *)
Theorem click_numclicks_positive (c : Click) (q : list QEvent) :
  0 <= clicks c -> (pressed c = true -> 1 <= clicks c) ->
  clicks c + Z.of_nat (List.length q) < 2 ^ 63 ->
  Forall (fun ev => Kind ev = KindCancel \/ 1 <= NumClicks ev) (snd (Update c q)) /\
  0 <= clicks (fst (Update c q)) /\
  (pressed (fst (Update c q)) = true -> 1 <= clicks (fst (Update c q))).
Proof.
  cut (forall c, click_count_ok c -> clicks c + Z.of_nat (List.length q) < 2 ^ 63 ->
    Forall (fun ev => Kind ev = KindCancel \/ 1 <= NumClicks ev) (snd (Update c q)) /\
    click_count_ok (fst (Update c q))).
  { intros H H0 H1 Hb. destruct (H c (conj H0 H1) Hb) as [Hf [Hc0 Hc1]]. auto. }
  clear c. induction q as [|[e|] q IH]; intros c Hc Hb.
  - split; [constructor | exact Hc].
  - rewrite Click_Update_cons. cbn [fst snd]. cbn [List.length] in Hb.
    destruct (step_count c e Hc ltac:(lia)) as [Hc' [Hle Hf]].
    destruct (IH (fst (step c e)) Hc' ltac:(lia)) as [Hf' Hc''].
    split; [apply Forall_app; split; assumption | exact Hc''].
  - cbn [List.length] in Hb. apply IH; [exact Hc | lia].
Qed.

End ClickFacts.

(** ** Further properties: [Hover] *)

Module HoverFacts.
Import Hover SeqSpec.

(** While a pointer is inside, [Hover] follows that pointer alone: every
    event of another pointer leaves the state as it is, and a [Leave] or
    [Cancel] of the tracked pointer ends the hover. *)
Theorem hover_single_pointer (h : Hover) (e : Pointer.Event) :
  entered h = true ->
  (pointerID e <> pid h -> step h e = h) /\
  (pointerID e = pid h -> kind e = Leave \/ kind e = Cancel ->
   step h e = mkHover false (pid h)).
Proof.
  destruct h as [en pd]. cbn. intros ->. unfold step. cbn.
  split.
  - intros Hne. assert (H : (pd =? pointerID e) = false) by (apply Z.eqb_neq; congruence).
    destruct (kind e); rewrite ?H; reflexivity.
  - intros Heq [Hk|Hk]; rewrite Hk, Heq, Z.eqb_refl; reflexivity.
Qed.

Lemma run_entered p q :
  forallb (keeps_pointer p) q = true ->
  run (mkHover true p) q = mkHover true p.
Proof.
  induction q as [|[e|] q IH]; intros Hq; [reflexivity| |apply IH, Hq].
  cbn in Hq. apply andb_prop in Hq as [He Hq]. cbn.
  replace (step (mkHover true p) e) with (mkHover true p); [exact (IH Hq)|].
  unfold step. cbn.
  destruct (kind e); cbn in He |- *; try reflexivity.
  - rewrite Z.eqb_sym, negb_true_iff in He. rewrite He. reflexivity.
  - destruct (p =? pointerID e); reflexivity.
  - rewrite Z.eqb_sym, negb_true_iff in He. rewrite He. reflexivity.
Qed.

(** An [Enter] that [Hover] accepts (nothing entered yet, or the same
    pointer) makes [Update] report [true] and track that pointer, through
    any later events of the same call in which the pointer neither
    leaves nor is cancelled. *)
Theorem hover_enter_holds (h : Hover) (p : Pointer.Event) (q : list QEvent) :
  kind p = Enter -> entered h = false \/ pid h = pointerID p ->
  forallb (keeps_pointer (pointerID p)) q = true ->
  Update h (EvPointer p :: q) = (mkHover true (pointerID p), true).
Proof.
  intros Hk Hh Hq. unfold Update. cbn [run].
  replace (step h p) with (mkHover true (pointerID p)).
  - rewrite run_entered by exact Hq. reflexivity.
  - destruct h as [en pd]. unfold step. rewrite Hk. cbn in Hh |- *.
    destruct Hh as [-> | ->]; cbn; [|destruct en]; rewrite Z.eqb_refl; reflexivity.
Qed.

End HoverFacts.

(** ** Further properties: processing a queue in parts *)

Lemma Click_Update_app (c : Click.Click) (q1 q2 : list QEvent) :
  Click.Update c (q1 ++ q2) =
  (fst (Click.Update (fst (Click.Update c q1)) q2),
   snd (Click.Update c q1) ++ snd (Click.Update (fst (Click.Update c q1)) q2)).
Proof.
  revert c. induction q1 as [|[e|] q1 IH]; intros c.
  - cbn. destruct (Click.Update c q2). reflexivity.
  - cbn [app Click.Update]. destruct (Click.step c e) as [c1 es1].
    rewrite IH. destruct (Click.Update c1 q1) as [c2 es2]. cbn.
    rewrite app_assoc. reflexivity.
  - apply IH.
Qed.

Lemma Drag_Update_app (cfg : Metric) (d : Drag.Drag) (q1 q2 : list QEvent) (axis : Z) :
  Drag.Update cfg d (q1 ++ q2) axis =
  (fst (Drag.Update cfg (fst (Drag.Update cfg d q1 axis)) q2 axis),
   snd (Drag.Update cfg d q1 axis) ++
   snd (Drag.Update cfg (fst (Drag.Update cfg d q1 axis)) q2 axis)).
Proof.
  revert d. induction q1 as [|[e|] q1 IH]; intros d.
  - cbn. destruct (Drag.Update cfg d q2 axis). reflexivity.
  - cbn [app Drag.Update]. destruct (Drag.step cfg axis d e) as [d1 es1].
    rewrite IH. destruct (Drag.Update cfg d1 q1 axis) as [d2 es2]. cbn.
    rewrite app_assoc. reflexivity.
  - apply IH.
Qed.

Lemma Hover_run_app (h : Hover.Hover) (q1 q2 : list QEvent) :
  Hover.run h (q1 ++ q2) = Hover.run (Hover.run h q1) q2.
Proof.
  revert h. induction q1 as [|[e|] q1 IH]; intros h; [reflexivity|apply IH|apply IH].
Qed.

(** [Click], [Drag] and [Hover] keep no per-call state: handling a queue
    in one [Update] call gives the same final state, and the same events
    in the same order, as handling any split of it in two consecutive
    calls. *)
Theorem update_split :
  (forall c q1 q2,
     Click.Update c (q1 ++ q2) =
     let '(c1, es1) := Click.Update c q1 in
     let '(c2, es2) := Click.Update c1 q2 in (c2, es1 ++ es2)) /\
  (forall cfg d q1 q2 axis,
     Drag.Update cfg d (q1 ++ q2) axis =
     let '(d1, es1) := Drag.Update cfg d q1 axis in
     let '(d2, es2) := Drag.Update cfg d1 q2 axis in (d2, es1 ++ es2)) /\
  (forall h q1 q2,
     Hover.Update h (q1 ++ q2) = Hover.Update (fst (Hover.Update h q1)) q2).
Proof.
  split; [|split].
  - intros c q1 q2. rewrite Click_Update_app.
    destruct (Click.Update c q1) as [c1 es1]. cbn.
    destruct (Click.Update c1 q2). reflexivity.
  - intros cfg d q1 q2 axis. rewrite Drag_Update_app.
    destruct (Drag.Update cfg d q1 axis) as [d1 es1]. cbn.
    destruct (Drag.Update cfg d1 q2 axis). reflexivity.
  - intros h q1 q2. unfold Hover.Update. cbn [fst].
    rewrite Hover_run_app. reflexivity.
Qed.

(** ** Further properties: [Drag] and [widget.Draggable] *)

Module DragMore.
Import Drag SeqSpec.

Lemma drag_shape_app st l1 l2 :
  drag_shape st (l1 ++ l2) =
  match drag_shape st l1 with Some st' => drag_shape st' l2 | None => None end.
Proof.
  revert st. induction l1 as [|e l1 IH]; intros st; [reflexivity|].
  cbn. destruct (kind e), st; try apply IH; try reflexivity;
    destruct (_ =? _); try apply IH; reflexivity.
Qed.

Lemma drag_step_shape cfg axis d e :
  drag_shape (drag_open d) (snd (step cfg axis d e)) = Some (drag_open (fst (step cfg axis d e))).
Proof.
  destruct d as [dr pr pd st gr]. unfold step, drag_open.
  destruct (kind e) eqn:Hk; cbn -[exceeds pin].
  - destruct dr; cbn; [|reflexivity].
    destruct (pointerID e =? pd) eqn:Hp; cbn; [|reflexivity].
    rewrite Hk, Hp. reflexivity.
  - destruct (negb ((buttons e =? ButtonPrimary) || (source e =? Touch))); [reflexivity|].
    destruct dr; cbn; [reflexivity|]. rewrite Hk. reflexivity.
  - destruct dr; cbn; [|reflexivity].
    destruct (pointerID e =? pd) eqn:Hp; cbn; [|reflexivity].
    rewrite Hk, Hp. reflexivity.
  - rewrite Hk. reflexivity.
  - destruct dr; cbn -[exceeds pin]; [|reflexivity].
    destruct (pointerID e =? pd) eqn:Hp; cbn -[exceeds pin]; [|reflexivity].
    rewrite DragFacts.pin_kind, DragFacts.pin_pointerID, Hk, Hp.
    destruct (priority (pin axis st e) <? Grabbed);
      [destruct (exceeds cfg st (position (pin axis st e)))|]; reflexivity.
  - rewrite Hk. reflexivity.
  - rewrite Hk. reflexivity.
  - rewrite Hk. reflexivity.
Qed.

(** The events [Drag.Update] forwards form well-nested gestures, across
    any number of calls: a [Press] (only while no gesture is open) opens
    a gesture of its pointer, every forwarded [Drag] event comes from the
    pointer of the open gesture, and a [Release] or [Cancel] of that
    pointer closes it; at the end the open gesture is the one the state
    records ([dragging] with [pid]). *)
Theorem drag_update_shape (cfg : Metric) (d : Drag) (q : list QEvent) (axis : Z) :
  drag_shape (drag_open d) (snd (Update cfg d q axis)) =
  Some (drag_open (fst (Update cfg d q axis))).
Proof.
  revert d. induction q as [|[e|] q IH]; intros d; [reflexivity| |apply IH].
  rewrite DragFacts.Update_out_cons, DragFacts.Update_cons.
  rewrite drag_shape_app, drag_step_shape. apply IH.
Qed.

Lemma drag_step_grab_dragging cfg axis d e :
  implb (grab d) (dragging d) = true ->
  implb (grab (fst (step cfg axis d e))) (dragging (fst (step cfg axis d e))) = true.
Proof.
  destruct d as [dr pr pd st gr]. unfold step. cbn. intros H.
  destruct dr, gr; cbn in H; try discriminate.
  all: destruct (kind e); cbn -[exceeds pin];
    repeat match goal with
           | |- context [if ?b then _ else _] => destruct b
           end; reflexivity.
Qed.

(** [Drag] asks for a pointer grab only during a gesture: from any state
    where [grab] implies [dragging] (the zero [Drag] among them), every
    [Update] keeps that implication, so the [InputOp] that [Drag.Add]
    emits never requests a grab while no drag is in progress. *)
Theorem drag_grab_only_dragging (cfg : Metric) (d : Drag) (q : list QEvent) (axis : Z) :
  implb (grab d) (dragging d) = true ->
  implb (grab (fst (Update cfg d q axis))) (dragging (fst (Update cfg d q axis))) = true.
Proof.
  revert d. induction q as [|[e|] q IH]; intros d H; [exact H| |apply IH, H].
  rewrite DragFacts.Update_cons. apply IH, drag_step_grab_dragging, H.
Qed.

(** Under [Both] no coordinate is pinned: a run of [Drag] events of the
    dragging pointer is forwarded as it is, and the state keeps
    [dragging], [pid] and [start]. *)
Lemma both_run cfg d qs :
  dragging d = true ->
  Forall (fun e => kind e = Pointer.Drag /\ pointerID e = pid d) qs ->
  snd (Update cfg d (map EvPointer qs) Both) = qs /\
  dragging (fst (Update cfg d (map EvPointer qs) Both)) = true /\
  pid (fst (Update cfg d (map EvPointer qs) Both)) = pid d /\
  start (fst (Update cfg d (map EvPointer qs) Both)) = start d.
Proof.
  revert d. induction qs as [|e qs IH]; intros d Hd Hq.
  - repeat split; assumption || reflexivity.
  - inversion Hq as [|? ? [Hk Hp] Hq']; subst.
    assert (Hs : snd (step cfg Both d e) = [e] /\
                 dragging (fst (step cfg Both d e)) = true /\
                 pid (fst (step cfg Both d e)) = pid d /\
                 start (fst (step cfg Both d e)) = start d).
    { destruct d as [dr pr pd st gr]. cbn in Hd, Hp |- *. subst dr.
      unfold step. rewrite Hk, Hp, Z.eqb_refl. cbn -[exceeds].
      destruct (priority e <? Grabbed); [destruct (exceeds cfg st (position e))|];
        repeat split. }
    destruct Hs as [Hs [Hd' [Hp' Hst']]].
    cbn [map]. rewrite DragFacts.Update_out_cons, DragFacts.Update_cons.
    rewrite <- Hp' in Hq'.
    destruct (IH _ Hd' Hq') as [Ho [Hd'' [Hp'' Hst'']]].
    rewrite Hs, Ho.
    repeat split; [exact Hd''|congruence|congruence].
Qed.

Lemma track_drags cl p e0 qs :
  qs <> [] ->
  Forall (fun e => kind e = Pointer.Drag) qs ->
  Draggable.track cl p qs = (cl, Point_Sub (position (last qs e0)) cl).
Proof.
  revert p. induction qs as [|e qs IH]; intros p Hne Hq; [congruence|].
  inversion Hq as [|? ? Hk Hq']; subst. cbn. rewrite Hk.
  destruct qs as [|e' qs']; [reflexivity|].
  rewrite IH by (discriminate || exact Hq'). reflexivity.
Qed.

(** [Draggable.Pos] is the displacement from the pressing point: after
    an accepted [Press] of an idle [Draggable] followed by [Drag] events
    of the same pointer, the [Draggable] is dragging, remembers the press
    position as its click point, and [Pos] is the last event's position
    minus the press position. *)
Theorem draggable_pos_offset (cfg : Metric) (d : Draggable.Draggable)
  (p : Pointer.Event) (qs : list Pointer.Event) (hq : list Draggable.HandleEvent) :
  dragging (Draggable.drag d) = false ->
  kind p = Press -> (buttons p = ButtonPrimary \/ source p = Touch) ->
  qs <> [] ->
  Forall (fun e => kind e = Pointer.Drag /\ pointerID e = pointerID p) qs ->
  let d' := fst (Draggable.Update cfg d (map EvPointer (p :: qs)) hq) in
  Draggable.Dragging d' = true /\ Draggable.click d' = position p /\
  Draggable.Pos d' = Point_Sub (position (last qs p)) (position p).
Proof.
  intros Hd Hk Hb Hne Hq d'. subst d'.
  destruct d as [ty [dr pr pd st gr] cl ps]. cbn in Hd. subst dr.
  assert (Hgate : (buttons p =? ButtonPrimary) || (source p =? Touch) = true).
  { destruct Hb as [-> | ->]; rewrite Z.eqb_refl; [reflexivity|apply orb_true_r]. }
  set (d1 := mkDrag true true (pointerID p) (position p) gr).
  assert (Hs : step cfg Both (mkDrag false pr pd st gr) p = (d1, [p])).
  { unfold step. rewrite Hk, Hgate. reflexivity. }
  destruct (both_run cfg d1 qs eq_refl Hq) as [Ho [Hdr _]].
  unfold Draggable.Update. cbn [Draggable.drag map].
  rewrite (surjective_pairing (Update cfg _ _ Both)).
  rewrite DragFacts.Update_out_cons, DragFacts.Update_cons, Hs. cbn [fst snd app].
  rewrite Ho. cbn [Draggable.track]. rewrite Hk.
  rewrite (track_drags _ _ p) by (exact Hne || (eapply Forall_impl; [|exact Hq]; intros e [He _]; exact He)).
  cbn. split; [exact Hdr|]. split; reflexivity.
Qed.

(** [Draggable] reads [Pressed] of its [Drag], which a [Release] or
    [Cancel] of any pointer clears: while a drag of one pointer is in
    progress, such an event of another pointer stops [Layout] from
    drawing the dragged widget ([Pressed] is false), while the drag goes
    on ([Dragging] stays true) and [Pos] is unchanged. *)
Theorem draggable_release_other (cfg : Metric) (d : Draggable.Draggable)
  (e : Pointer.Event) (hq : list Draggable.HandleEvent) :
  Draggable.Dragging d = true ->
  (kind e = Release \/ kind e = Cancel) -> pointerID e <> pid (Draggable.drag d) ->
  let d' := fst (Draggable.Update cfg d [EvPointer e] hq) in
  pressed (Draggable.drag d') = false /\ Draggable.Dragging d' = true /\
  Draggable.Pos d' = Draggable.Pos d.
Proof.
  intros Hd Hk Hp d'. subst d'.
  destruct d as [ty [dr pr pd st gr] cl ps]. cbn in Hd, Hp. subst dr.
  assert (H1 : (pointerID e =? pd) = false) by (apply Z.eqb_neq; exact Hp).
  unfold Draggable.Update. cbn [Draggable.drag Update].
  unfold step. destruct Hk as [Hk|Hk]; rewrite Hk; cbn; rewrite H1; cbn;
    repeat split.
Qed.

End DragMore.

(** ** Further properties: [Scroll] and the [String] methods *)

Module ScrollMore.
Import Scroll.

Lemma scroll_step_grab_dragging (env : Env) cfg t s e :
  implb (grab s) (dragging s) = true ->
  implb (grab (fst (step cfg t s e))) (dragging (fst (step cfg t s e))) = true.
Proof.
  destruct s as [dr ax es fl pd gr la sc]. unfold step. cbn. intros H.
  destruct dr, gr; cbn in H; try discriminate.
  all: destruct (kind e); cbn;
    repeat match goal with
           | |- context [if ?b then _ else _] => destruct b
           end; reflexivity.
Qed.

Lemma run_grab_dragging (env : Env) cfg t s q total :
  implb (grab s) (dragging s) = true ->
  implb (grab (fst (run cfg t s q total))) (dragging (fst (run cfg t s q total))) = true.
Proof.
  revert s total. induction q as [|[e|] q IH]; intros s total H; [exact H| |apply IH, H].
  cbn. pose proof (scroll_step_grab_dragging env cfg t s e H) as H'.
  destruct (step cfg t s e) as [s1 n]. apply IH, H'.
Qed.

(** [Scroll] asks for a pointer grab only while dragging: from any state
    where [grab] implies [dragging] (the zero [Scroll] among them), every
    [Update], whatever the axis, keeps that implication, so [Scroll.Add]
    never requests a grab outside a drag. *)
Theorem scroll_grab_only_dragging (env : Env) (cfg : Metric) (s : Scroll)
  (q : list QEvent) (t : Time) (ax : Z) :
  implb (grab s) (dragging s) = true ->
  implb (grab (fst (Update cfg s q t ax))) (dragging (fst (Update cfg s q t ax))) = true.
Proof.
  intros H. unfold Update.
  destruct (negb (axis s =? ax)); [exact H|].
  pose proof (run_grab_dragging env cfg t s q 0 H) as H'.
  destruct (run cfg t s q 0) as [s1 total]. cbn in H'.
  destruct (Tick (flinger s1) t). exact H'.
Qed.

(** How [Scroll.State] follows the gesture, for an animation whose zero
    value is not [Active]: a [Press] that starts a drag (touch, or any
    source on Android, while not dragging) stops the fling and makes the
    state [StateDragging]; a [Cancel], or a [Release] of the dragging
    pointer, leaves a state other than [StateDragging] (flinging or
    idle). *)
Theorem scroll_state_steps (env : Env) (Active : Animation -> bool) (cfg : Metric)
  (t : Time) (s : Scroll) (e : Pointer.Event) :
  Active animation0 = false ->
  (kind e = Press -> dragging s = false -> (source e = Touch \/ android = true) ->
   Scroll_State Active (fst (step cfg t s e)) = StateDragging) /\
  (kind e = Cancel \/ (kind e = Release /\ pid s = pointerID e) ->
   Scroll_State Active (fst (step cfg t s e)) <> StateDragging).
Proof.
  intros H0. split.
  - intros Hk Hd Hs. unfold step. rewrite Hk, Hd.
    replace (negb (source e =? Touch) && negb android) with false
      by (destruct Hs as [-> | ->]; [rewrite Z.eqb_refl|rewrite andb_false_r]; reflexivity).
    unfold Scroll_State. cbn. rewrite H0. reflexivity.
  - intros Hk. unfold Scroll_State.
    assert (Hd : dragging (fst (step cfg t s e)) = false).
    { unfold step. destruct Hk as [Hk | [Hk Hp]]; rewrite Hk; [reflexivity|].
      rewrite Hp, Z.eqb_refl. reflexivity. }
    rewrite Hd. unfold StateFlinging, StateDragging, StateIdle.
    destruct (Active (flinger (fst (step cfg t s e)))); lia.
Qed.

End ScrollMore.

(** The [String] methods never panic on the values the package itself
    produces: [ScrollState.String] on any result of [Scroll.State] gives
    that state's name, and [ClickKind.String] on the kind of any event
    [Click.Update] returns gives a name. *)
Theorem string_of_produced_values :
  (forall (env : Scroll.Env) (Active : Scroll.Animation -> bool) (s : Scroll.Scroll),
     ScrollState_String (Scroll_State Active s) =
     Ret (if Active (Scroll.flinger s) then "StateFlinging"
          else if Scroll.dragging s then "StateDragging" else "StateIdle")) /\
  (forall (c : Click.Click) (q : list QEvent),
     Forall (fun ev => exists name, ClickKind_String (Click.Kind ev) = Ret name)
       (snd (Click.Update c q))).
Proof.
  split.
  - intros env Active s. unfold Scroll_State.
    destruct (Active _); [reflexivity|]. destruct (Scroll.dragging s); reflexivity.
  - intros c q. revert c. induction q as [|[e|] q IH]; intros c; [constructor| |apply IH].
    rewrite ClickFacts.Click_Update_cons. cbn [snd]. apply Forall_app. split; [|apply IH].
    destruct c as [ca cl pr hv en pd]. unfold Click.step.
    destruct (kind e); cbn;
      repeat match goal with
             | |- context [if ?b then _ else _] => destruct b
             end;
      repeat constructor; eexists; reflexivity.
Qed.

(** ** Further properties: [widget.Enum] *)

Module EnumFacts.
Import Enum SeqSpec.

Lemma click_loop_ok V0 K k v ch evs :
  In k K -> enum_value_ok V0 K v ch ->
  enum_value_ok V0 K (fst (click_loop k v ch evs)) (snd (click_loop k v ch evs)).
Proof.
  intros Hk. revert v ch. induction evs as [|ev evs IH]; intros v ch H; [exact H|].
  cbn. destruct (Click.Kind ev =? Click.KindClick); [|apply IH, H].
  destruct (negb (String.eqb k v)); apply IH; [|exact H].
  split; [discriminate | intros _; exact Hk].
Qed.

Lemma tag_loop_ok V0 K k e ch evs :
  In k K -> enum_value_ok V0 K (Value e) ch ->
  enum_value_ok V0 K (Value (fst (tag_loop k e ch evs))) (snd (tag_loop k e ch evs)) /\
  hovered (fst (tag_loop k e ch evs)) = hovered e /\
  hovering (fst (tag_loop k e ch evs)) = hovering e.
Proof.
  intros Hk. revert e ch. induction evs as [|[[|]|name st|] evs IH]; intros e ch H.
  all: cbn [tag_loop].
  all: repeat match goal with
              | |- context [if ?b then _ else _] => destruct b
              end.
  all: try (repeat split; apply H).
  all: lazymatch goal with
       | |- context [tag_loop _ ?e' ?ch' _] =>
           destruct (IH e' ch') as [A [B C]];
           [first [exact H | split; [discriminate | intros _; exact Hk]]|]
       end.
  all: split; [exact A | split; [rewrite B | rewrite C]; reflexivity].
Qed.

Lemma tag_loop_hover k e ch evs :
  hovered (fst (tag_loop k e ch evs)) = hovered e /\
  hovering (fst (tag_loop k e ch evs)) = hovering e.
Proof.
  revert e ch. induction evs as [|[[|]|name st|] evs IH]; intros e ch.
  all: cbn [tag_loop].
  all: repeat match goal with
              | |- context [if ?b then _ else _] => destruct b
              end.
  all: try (split; reflexivity).
  all: lazymatch goal with
       | |- context [tag_loop _ ?e' ?ch' _] =>
           destruct (IH e' ch') as [B C]; rewrite B, C; split; reflexivity
       end.
Qed.

Lemma keys_loop_ok V0 K q i e ch ks :
  (forall st, In st ks -> In (key st) K) -> enum_value_ok V0 K (Value e) ch ->
  enum_value_ok V0 K (Value (snd (fst (keys_loop q i e ch ks)))) (snd (keys_loop q i e ch ks)).
Proof.
  revert i e ch. induction ks as [|st ks IH]; intros i e ch HK H; [exact H|].
  cbn. destruct (Click.Update (click st) (clicks_of q i)) as [c evs].
  pose proof (click_loop_ok V0 K (key st) (Value e) ch evs (HK st (or_introl eq_refl)) H)
    as Hc.
  destruct (click_loop (key st) (Value e) ch evs) as [v ch1]. cbn in Hc.
  destruct (tag_loop_ok V0 K (key st) (set_Value e v) ch1 (tags_of q i)
              (HK st (or_introl eq_refl)) Hc) as [Ht _].
  destruct (tag_loop (key st) (set_Value e v) ch1 (tags_of q i)) as [e2 ch2].
  cbn in Ht.
  pose proof (IH (S i) (if Click.hovered c then set_hovering (set_hovered e2 (key st)) true
                        else e2) ch2 (fun st' Hin => HK st' (or_intror Hin))) as IH'.
  destruct (keys_loop q (S i) _ ch2 ks) as [[ks' e3] ch3]. cbn.
  apply IH'. destruct (Click.hovered c); exact Ht.
Qed.

Lemma keys_loop_keys q i e ch ks :
  map key (fst (fst (keys_loop q i e ch ks))) = map key ks.
Proof.
  revert i e ch. induction ks as [|st ks IH]; intros i e ch; [reflexivity|].
  cbn. destruct (Click.Update (click st) (clicks_of q i)) as [c evs].
  destruct (click_loop (key st) (Value e) ch evs) as [v ch1].
  destruct (tag_loop (key st) (set_Value e v) ch1 (tags_of q i)) as [e2 ch2].
  specialize (IH (S i) (if Click.hovered c then set_hovering (set_hovered e2 (key st)) true
                        else e2) ch2).
  destruct (keys_loop q (S i) _ ch2 ks) as [[ks' e3] ch3]. cbn in IH |- *.
  rewrite IH. reflexivity.
Qed.

(** [Enum.Update] reports [changed] exactly when it has assigned
    [Value]: if it returns [false], [Value] is what it was; if it returns
    [true], [Value] is one of the registered keys. *)
Theorem enum_update_changed (q : option Queue) (e : Enum) :
  (snd (Update q e) = false -> Value (fst (Update q e)) = Value e) /\
  (snd (Update q e) = true -> In (Value (fst (Update q e))) (map key (keys e))).
Proof.
  unfold Update.
  match goal with
  | |- context [keys_loop ?q ?i ?e0 ?ch ?ks] =>
      pose proof (keys_loop_ok (Value e) (map key (keys e)) q i e0 ch ks) as H;
      destruct (keys_loop q i e0 ch ks) as [[ks' e'] ch']
  end.
  cbn. apply H.
  - intros st Hin. apply in_map. destruct q; exact Hin.
  - split; [intros _; destruct q; reflexivity | discriminate].
Qed.

Lemma keys_loop_none i e ch ks :
  keys_loop None i e ch ks =
  (ks, fold_left (fun e st => if Click.hovered (click st)
                              then set_hovering (set_hovered e (key st)) true else e) ks e, ch).
Proof.
  revert i e. induction ks as [|[k c] ks IH]; intros i e; [reflexivity|].
  cbn. rewrite IH. destruct e; reflexivity.
Qed.

(** With a nil [gtx.Queue] (a disabled [Enum]) [Update] reports no
    change and changes neither [Value] nor the keys' click states, and
    the [Enum] is no longer focused. *)
Theorem enum_update_disabled (e : Enum) :
  snd (Update None e) = false /\ Value (fst (Update None e)) = Value e /\
  keys (fst (Update None e)) = keys e /\ Focused (fst (Update None e)) = (focus e, false).
Proof.
  unfold Update. rewrite keys_loop_none. cbn.
  assert (H : forall ks e', Value e' = Value e -> focus e' = focus e -> focused e' = false ->
    let e'' := fold_left (fun e st => if Click.hovered (click st)
                 then set_hovering (set_hovered e (key st)) true else e) ks e' in
    Value e'' = Value e /\ focus e'' = focus e /\ focused e'' = false).
  { induction ks as [|st ks IH]; intros e' H1 H2 H3; [auto|].
    cbn. apply IH; destruct (Click.hovered (click st)); assumption. }
  destruct (H (keys e) (set_hovering (set_focused e false) false) eq_refl eq_refl eq_refl)
    as [H1 [H2 H3]].
  unfold Focused. cbn. rewrite H1, H2, H3. repeat split.
Qed.

Lemma find_rev_cons {A} (f : A -> bool) (x : A) (l : list A) :
  find f (rev (x :: l)) = match find f (rev l) with Some y => Some y | None => if f x then Some x else None end.
Proof.
  cbn. induction (rev l) as [|y r IH]; [reflexivity|].
  cbn. destruct (f y); [reflexivity|exact IH].
Qed.

Lemma keys_loop_hovered q i e ch ks :
  let '(ks', e', _) := keys_loop q i e ch ks in
  (hovered e', hovering e') =
  match find (fun st => Click.hovered (click st)) (rev ks') with
  | Some st => (key st, true)
  | None => (hovered e, hovering e)
  end.
Proof.
  revert i e ch. induction ks as [|st ks IH]; intros i e ch; [reflexivity|].
  cbn. destruct (Click.Update (click st) (clicks_of q i)) as [c evs].
  destruct (click_loop (key st) (Value e) ch evs) as [v ch1].
  destruct (tag_loop_hover (key st) (set_Value e v) ch1 (tags_of q i)) as [Hh1 Hh2].
  destruct (tag_loop (key st) (set_Value e v) ch1 (tags_of q i)) as [e2 ch2].
  cbn in Hh1, Hh2.
  specialize (IH (S i) (if Click.hovered c then set_hovering (set_hovered e2 (key st)) true
                        else e2) ch2).
  destruct (keys_loop q (S i) _ ch2 ks) as [[ks' e3] ch3].
  rewrite IH, find_rev_cons. cbn [click key].
  destruct (find _ (rev ks')); [reflexivity|].
  destruct (Click.hovered c); cbn; [reflexivity|]. rewrite Hh1, Hh2. reflexivity.
Qed.

(** [Enum.Hovered] after [Update] reports the last key, in registration
    order, whose click gesture is hovered after this update, or no key
    (with the previous name kept) when none is. *)
Theorem enum_update_hovered (q : option Queue) (e : Enum) :
  Hovered (fst (Update q e)) =
  match find (fun st => Click.hovered (click st)) (rev (keys (fst (Update q e)))) with
  | Some st => (key st, true)
  | None => (hovered e, false)
  end.
Proof.
  unfold Update.
  match goal with
  | |- context [keys_loop ?q ?i ?e0 ?ch ?ks] =>
      pose proof (keys_loop_hovered q i e0 ch ks) as H;
      destruct (keys_loop q i e0 ch ks) as [[ks' e'] ch']
  end.
  unfold Hovered. cbn. rewrite H. destruct q; reflexivity.
Qed.

Lemma index_some ks k :
  In k (map key ks) -> exists st, index ks k = Some st /\ key st = k.
Proof.
  induction ks as [|st ks IH]; intros Hin; [destruct Hin|].
  cbn. destruct (String.eqb (key st) k) eqn:Hk.
  - exists st. split; [reflexivity|]. apply String.eqb_eq, Hk.
  - apply IH. destruct Hin as [Heq|Hin]; [|exact Hin].
    rewrite Heq, String.eqb_refl in Hk. discriminate.
Qed.

Lemma index_none ks k : index ks k = None -> ~ In k (map key ks).
Proof.
  intros Hn Hin. destruct (index_some ks k Hin) as [st [Hs _]]. congruence.
Qed.

Lemma index_some_in ks k st :
  index ks k = Some st -> In k (map key ks) /\ key st = k.
Proof.
  induction ks as [|st' ks IH]; intros Hi; [discriminate|].
  cbn in Hi. destruct (String.eqb (key st') k) eqn:Hk.
  - injection Hi as <-. apply String.eqb_eq in Hk. split; [left; exact Hk | exact Hk].
  - destruct (IH Hi) as [Hin Hst]. split; [right; exact Hin | exact Hst].
Qed.

Lemma index_app_none ks x k :
  index ks k = None -> key x = k -> index (ks ++ [x]) k = Some x.
Proof.
  intros Hi Hx. induction ks as [|st ks IH]; cbn.
  - rewrite Hx, String.eqb_refl. reflexivity.
  - cbn in Hi. destruct (String.eqb (key st) k); [discriminate|]. apply IH, Hi.
Qed.

Lemma NoDup_snoc (l : list string) (k : string) :
  NoDup l -> ~ In k l -> NoDup (l ++ [k]).
Proof.
  induction l as [|x l IH]; intros Hnd Hn; cbn.
  - constructor; [intros []|constructor].
  - inversion Hnd as [|? ? Hx Hl]; subst. constructor.
    + intros Hin. apply in_app_or in Hin as [Hin|[Hin|[]]]; [contradiction|].
      apply Hn. left. symmetry. exact Hin.
    + apply IH; [exact Hl|]. intros Hin. apply Hn. right. exact Hin.
Qed.

Lemma existsb_eqb_in (k : string) (l : list string) :
  existsb (String.eqb k) l = true <-> In k l.
Proof.
  rewrite existsb_exists. split.
  - intros [x [Hin Hx]]. apply String.eqb_eq in Hx. subst x. exact Hin.
  - intros Hin. exists k. split; [exact Hin | apply String.eqb_refl].
Qed.

(** [Enum.Layout] registers each key once: from keys with distinct
    names it keeps them distinct, afterwards [index] finds the key [k],
    and it appends [k] (with a zero click gesture) exactly when [k] was
    not registered yet, keeping the other keys in order: the keys after
    [Layout] are those [Update] leaves, followed by [k] with
    [Click.zero] if [k] was new. *)
Theorem enum_layout_registers (q : option Queue) (e : Enum) (k : string) :
  NoDup (map key (keys e)) ->
  NoDup (map key (keys (Layout q e k))) /\
  (exists st, index (keys (Layout q e k)) k = Some st /\ key st = k) /\
  map key (keys (Layout q e k)) =
    map key (keys e) ++ (if existsb (String.eqb k) (map key (keys e)) then [] else [k]) /\
  keys (Layout q e k) =
    keys (fst (Update q e)) ++
    (if existsb (String.eqb k) (map key (keys e)) then [] else [mkEnumKey k Click.zero]).
Proof.
  intros Hnd.
  assert (HK : map key (keys (fst (Update q e))) = map key (keys e)).
  { unfold Update.
    destruct (keys_loop _ 0 _ false (keys (set_hovering _ false))) as [[ks e'] ch] eqn:Hl.
    cbn. pose proof (keys_loop_keys q 0
      (set_hovering (match q with None => set_focused e false | Some _ => e end) false)
      false (keys (set_hovering (match q with None => set_focused e false | Some _ => e end)
                     false))) as H.
    rewrite Hl in H. cbn in H. rewrite H. destruct q; reflexivity. }
  unfold Layout.
  destruct (index (keys (fst (Update q e))) k) as [st|] eqn:Hi.
  - destruct (index_some_in _ _ _ Hi) as [Hin Hst]. rewrite HK in Hin.
    rewrite HK. split; [exact Hnd|]. split; [exists st; split; assumption|].
    apply existsb_eqb_in in Hin. rewrite Hin, !app_nil_r.
    split; reflexivity.
  - pose proof (index_none _ _ Hi) as Hn. rewrite HK in Hn.
    cbn [keys set_keys]. rewrite map_app, HK. cbn [map key].
    split; [apply NoDup_snoc; assumption|]. split.
    + exists (mkEnumKey k Click.zero). split; [|reflexivity].
      apply index_app_none; [exact Hi | reflexivity].
    + destruct (existsb (String.eqb k) (map key (keys e))) eqn:He; [|split; reflexivity].
      apply existsb_eqb_in in He. contradiction.
Qed.

End EnumFacts.

(** ** Counterexamples *)

(** Claim C3 as stated fails: with slop 3 and [|last - v| = 3], which does
    not exceed the slop, a [Drag] below [Grabbed] sets the grab request. *)
Lemma scroll_grab_at_slop :
  Scroll.grab scroll_dragging = false /\
  Z.abs (Scroll.last scroll_dragging - F32.round_int (X (position drag1_at0)))
    = Dp metric1 touchSlop /\
  Scroll.grab (fst (Scroll.step (env:=sampleEnv) metric1 0 scroll_dragging drag1_at0))
    = true.
Proof. vm_compute. repeat split. Qed.

(** Claim C6 as stated fails: the [float32] accumulator after three
    [0.3] wheel deltas is neither [float32(0.9)] nor [9/10], and after a
    fourth it is neither [float32(0.2)] nor [2/10]. *)
Lemma scroll_wheel_remainders :
  F32.eqb (snd (wheel_steps (env:=sampleEnv) metric1 0 scroll0 (repeat (F32.of_ratio 3 10) 3)))
    (F32.of_ratio 9 10) = false /\
  F32.man (snd (wheel_steps (env:=sampleEnv) metric1 0 scroll0 (repeat (F32.of_ratio 3 10) 3))) * 10
    <> 9 * 2 ^ (- F32.exp (snd (wheel_steps (env:=sampleEnv) metric1 0 scroll0
                                  (repeat (F32.of_ratio 3 10) 3)))) /\
  F32.eqb (snd (wheel_steps (env:=sampleEnv) metric1 0 scroll0 (repeat (F32.of_ratio 3 10) 4)))
    (F32.of_ratio 2 10) = false /\
  F32.man (snd (wheel_steps (env:=sampleEnv) metric1 0 scroll0 (repeat (F32.of_ratio 3 10) 4))) * 10
    <> 2 * 2 ^ (- F32.exp (snd (wheel_steps (env:=sampleEnv) metric1 0 scroll0
                                  (repeat (F32.of_ratio 3 10) 4)))).
Proof. vm_compute. repeat split; discriminate. Qed.

(** Claim C8 as stated fails: a [Release] of pointer 2 while [Drag] is
    dragging pointer 1 changes its state (it clears [pressed]). *)
Lemma drag_release_other_pointer :
  Drag.dragging drag_active = true /\
  pointerID release2 <> Drag.pid drag_active /\
  fst (Drag.step metric1 Horizontal drag_active release2) <> drag_active.
Proof. vm_compute. split; [reflexivity|split; discriminate]. Qed.

(** ** Witnesses: the theorems at concrete inputs *)

(** [click_press_count] at a press 100 ms after the last one: the count
    goes from 1 to 2. *)
Lemma click_press_count_witness :
  kind press7 = Press /\ Click.press_accepted click_hovered press7 = true /\
  in_int64 (Click.clicks click_hovered + 1) /\
  (let '(c', evs) := Click.step click_hovered press7 in
   Click.pressed c' = true /\
   Click.clicks c' =
     (if i64 (time press7 - Click.clickedAt click_hovered) <? doubleClickDuration
      then Click.clicks click_hovered + 1 else 1) /\
   Click.clickedAt c' = time press7 /\
   evs = [Click.mkClickEvent Click.KindPress (Point_Round (position press7))
            (source press7) (modifiers press7) (Click.clicks c')]).
Proof.
  split; [reflexivity|]. split; [reflexivity|].
  split; [unfold in_int64; simpl; lia|].
  apply (proj1 (click_press_count click_hovered press7));
    [reflexivity | reflexivity | unfold in_int64; simpl; lia].
Defined.

(** [click_release] at a release of the owned pointer while pressed. *)
Lemma click_release_witness :
  kind release7 = Release /\ Click.pressed click_pressed = true /\
  Click.pid click_pressed = pointerID release7 /\
  Click.step click_pressed release7 =
    (Click.set_pressed click_pressed false,
     [if negb (Click.entered click_pressed) || Click.hovered click_pressed
      then Click.mkClickEvent Click.KindClick (Point_Round (position release7))
             (source release7) (modifiers release7) (Click.clicks click_pressed)
      else Click.cancelEvent]).
Proof.
  split; [reflexivity|]. split; [reflexivity|]. split; [reflexivity|].
  exact (proj1 (click_release click_pressed release7 eq_refl) eq_refl eq_refl).
Defined.

(** [cancel_absolute] at a [Cancel] of pointer 9, owned by neither. *)
Lemma cancel_absolute_witness :
  kind (pev Cancel Touch 9 Shared 0 0 0 0) = Cancel /\
  Click.step click_pressed (pev Cancel Touch 9 Shared 0 0 0 0) =
    (Click.mkClick (Click.clickedAt click_pressed) (Click.clicks click_pressed)
       false false false (Click.pid click_pressed),
     if Click.pressed click_pressed then [Click.cancelEvent] else []) /\
  (Scroll.dragging (fst (Scroll.step (env:=sampleEnv) metric1 0 scroll_dragging
                          (pev Cancel Touch 9 Shared 0 0 0 0))) = false /\
   Scroll.grab (fst (Scroll.step (env:=sampleEnv) metric1 0 scroll_dragging
                       (pev Cancel Touch 9 Shared 0 0 0 0))) = false /\
   snd (Scroll.step (env:=sampleEnv) metric1 0 scroll_dragging
          (pev Cancel Touch 9 Shared 0 0 0 0)) = 0).
Proof.
  split; [reflexivity|]. split.
  - exact (proj1 cancel_absolute click_pressed (pev Cancel Touch 9 Shared 0 0 0 0) eq_refl).
  - exact (proj2 cancel_absolute sampleEnv metric1 0 scroll_dragging
             (pev Cancel Touch 9 Shared 0 0 0 0) eq_refl).
Defined.

(** [scroll_drag_grab] at a [Drag] of the owned pointer to [x = 0] with
    [last = 3] and slop 3. *)
Lemma scroll_drag_grab_witness :
  kind drag1_at0 = Pointer.Drag /\ Scroll.dragging scroll_dragging = true /\
  Scroll.pid scroll_dragging = pointerID drag1_at0 /\ in_int64 (Dp metric1 touchSlop) /\
  (let v := F32.round_int (Scroll.val scroll_dragging (position drag1_at0)) in
   let dist := i64 (Scroll.last scroll_dragging - v) in
   Scroll.estimator (fst (Scroll.step (env:=sampleEnv) metric1 0 scroll_dragging drag1_at0)) =
     @Scroll.Sample sampleEnv (Scroll.estimator scroll_dragging) (time drag1_at0)
       (Scroll.val scroll_dragging (position drag1_at0)) /\
   (priority drag1_at0 < Grabbed ->
      snd (Scroll.step (env:=sampleEnv) metric1 0 scroll_dragging drag1_at0) = 0 /\
      Scroll.last (fst (Scroll.step (env:=sampleEnv) metric1 0 scroll_dragging drag1_at0)) =
        Scroll.last scroll_dragging /\
      Scroll.grab (fst (Scroll.step (env:=sampleEnv) metric1 0 scroll_dragging drag1_at0)) =
        Scroll.grab scroll_dragging || (Dp metric1 touchSlop <=? Z.abs dist)) /\
   (Grabbed <= priority drag1_at0 ->
      snd (Scroll.step (env:=sampleEnv) metric1 0 scroll_dragging drag1_at0) = dist /\
      Scroll.last (fst (Scroll.step (env:=sampleEnv) metric1 0 scroll_dragging drag1_at0)) = v /\
      Scroll.grab (fst (Scroll.step (env:=sampleEnv) metric1 0 scroll_dragging drag1_at0)) =
        Scroll.grab scroll_dragging)).
Proof.
  assert (Hs : in_int64 (Dp metric1 touchSlop)).
  { replace (Dp metric1 touchSlop) with 3 by reflexivity. unfold in_int64; lia. }
  split; [reflexivity|]. split; [reflexivity|]. split; [reflexivity|].
  split; [exact Hs|].
  exact (ScrollFacts.scroll_drag_grab sampleEnv metric1 0 scroll_dragging drag1_at0
           eq_refl eq_refl eq_refl Hs).
Defined.

(** [drag_grab_latch] on a small move that keeps the flag clear, and on a
    [Grabbed] move that keeps it set. *)
Lemma drag_grab_latch_witness :
  (Drag.grab drag_active = false /\
   DragSpec.all_steps (fun d e => negb (DragSpec.exceeding metric1 Horizontal d e))
     metric1 Horizontal drag_active [EvPointer drag1_small] = true /\
   Drag.grab (fst (Drag.Update metric1 drag_active [EvPointer drag1_small] Horizontal))
     = false) /\
  (Drag.grab drag_grabbed = true /\
   DragSpec.all_steps (fun d e => negb (DragSpec.ends d e))
     metric1 Horizontal drag_grabbed [EvPointer drag1_small; EvPointer drag1_far] = true /\
   Drag.grab (fst (Drag.Update metric1 drag_grabbed
                     [EvPointer drag1_small; EvPointer drag1_far] Horizontal)) = true).
Proof.
  split.
  - split; [reflexivity|]. split; [vm_compute; reflexivity|].
    apply (proj1 (proj2 (DragFacts.drag_grab_latch metric1 Horizontal)));
      [reflexivity | vm_compute; reflexivity].
  - split; [reflexivity|]. split; [vm_compute; reflexivity|].
    apply (proj2 (proj2 (DragFacts.drag_grab_latch metric1 Horizontal)));
      [reflexivity | vm_compute; reflexivity].
Defined.

(** [drag_axis_pin] on a small move while dragging, and on a press at
    [(10,10)] followed by a move to [(40,55)], forwarded at [Y = 10]. *)
Lemma drag_axis_pin_witness :
  (kind drag1_small = Pointer.Drag /\
   snd (Drag.step metric1 Horizontal drag_active drag1_small) =
     (if Drag.dragging drag_active && (pointerID drag1_small =? Drag.pid drag_active)
      then [Drag.pin Horizontal (Drag.start drag_active) drag1_small] else []) /\
   kind (Drag.pin Horizontal (Drag.start drag_active) drag1_small) = Pointer.Drag /\
   (Horizontal = Horizontal ->
      position (Drag.pin Horizontal (Drag.start drag_active) drag1_small) =
        mkPoint (X (position drag1_small)) (Y (Drag.start drag_active))) /\
   (Horizontal = Vertical ->
      position (Drag.pin Horizontal (Drag.start drag_active) drag1_small) =
        mkPoint (X (Drag.start drag_active)) (Y (position drag1_small))) /\
   (Horizontal = Both ->
      Drag.pin Horizontal (Drag.start drag_active) drag1_small = drag1_small)) /\
  (kind press1 = Press /\ (buttons press1 = ButtonPrimary \/ source press1 = Touch) /\
   position press1 = mkPoint (F32.of_int 10) (F32.of_int 10) /\
   Forall (fun e => kind e = Pointer.Drag) [drag1_far_y] /\
   In (Drag.pin Horizontal (position press1) drag1_far_y)
     (snd (Drag.Update metric1 Drag.zero (map EvPointer [press1; drag1_far_y]) Horizontal)) /\
   kind (Drag.pin Horizontal (position press1) drag1_far_y) = Pointer.Drag /\
   Y (position (Drag.pin Horizontal (position press1) drag1_far_y)) = F32.of_int 10).
Proof.
  split.
  - split; [reflexivity|].
    exact (proj1 (DragFacts.drag_axis_pin metric1) Horizontal drag_active drag1_small eq_refl).
  - assert (Hb : buttons press1 = ButtonPrimary \/ source press1 = Touch) by (right; reflexivity).
    assert (Hq : Forall (fun e => kind e = Pointer.Drag) [drag1_far_y])
      by (constructor; [reflexivity | constructor]).
    assert (Hin : In (Drag.pin Horizontal (position press1) drag1_far_y)
              (snd (Drag.Update metric1 Drag.zero (map EvPointer [press1; drag1_far_y])
                      Horizontal))) by (simpl; right; left; reflexivity).
    split; [reflexivity|]. split; [exact Hb|]. split; [reflexivity|].
    split; [exact Hq|]. split; [exact Hin|]. split; [reflexivity|].
    exact (proj2 (DragFacts.drag_axis_pin metric1) press1 [drag1_far_y] eq_refl Hb
             eq_refl Hq _ Hin eq_refl).
Defined.

(** [scroll_wheel_accumulate] at one [0.3] wheel event, and the four-event
    run from an empty accumulator. *)
Lemma scroll_wheel_accumulate_witness :
  kind wheel03 = Pointer.Scroll /\
  (let acc := if Scroll.axis scroll0 =? Horizontal
              then F32.add (Scroll.scroll scroll0) (X (Pointer.scroll wheel03))
              else if Scroll.axis scroll0 =? Vertical
              then F32.add (Scroll.scroll scroll0) (Y (Pointer.scroll wheel03))
              else Scroll.scroll scroll0 in
   Scroll.step (env:=sampleEnv) metric1 0 scroll0 wheel03 =
     (Scroll.set_scroll scroll0 (F32.sub acc (F32.of_int (F32.trunc acc))), F32.trunc acc)) /\
  Scroll.axis scroll0 = Horizontal /\ Scroll.scroll scroll0 = F32.zero /\
  wheel_steps (env:=sampleEnv) metric1 0 scroll0 (repeat (F32.of_ratio 3 10) 3)
    = ([0; 0; 0], F32.mk 15099495 (-24)) /\
  wheel_steps (env:=sampleEnv) metric1 0 scroll0 (repeat (F32.of_ratio 3 10) 4)
    = ([0; 0; 0; 1], F32.mk 1677722 (-23)).
Proof.
  split; [reflexivity|]. split.
  - exact (proj1 (ScrollFacts.scroll_wheel_accumulate sampleEnv metric1 0) scroll0 wheel03
             eq_refl).
  - split; [reflexivity|]. split; [reflexivity|].
    exact (proj2 (ScrollFacts.scroll_wheel_accumulate sampleEnv metric1 0) scroll0
             eq_refl eq_refl).
Defined.

(** [owned_pointer_filter] at events of pointer 2 for states owning
    pointer 1 (pointer 7 for [Click]): the [Release] of pointer 2 clears
    [pressed] of the dragging [Drag]; the wheel event [wheel03] of
    pointer 0 is forwarded by [Drag] and counts for [Scroll] as from
    pointer 1. *)
Lemma owned_pointer_filter_witness :
  (Click.pressed click_pressed = true /\ pointerID release2 <> Click.pid click_pressed /\
   kind release2 <> Cancel /\ Click.step click_pressed release2 = (click_pressed, [])) /\
  (Drag.dragging drag_active = true /\ pointerID release2 <> Drag.pid drag_active /\
   (kind release2 = Press \/ kind release2 = Pointer.Drag \/ kind release2 = Release) /\
   snd (Drag.step metric1 Horizontal drag_active release2) = [] /\
   fst (Drag.step metric1 Horizontal drag_active release2) =
     Drag.set_pressed drag_active false) /\
  (Scroll.dragging scroll_dragging = true /\ pointerID drag2 <> Scroll.pid scroll_dragging /\
   (kind drag2 = Press \/ kind drag2 = Pointer.Drag \/ kind drag2 = Release) /\
   Scroll.step (env:=sampleEnv) metric1 0 scroll_dragging drag2 = (scroll_dragging, 0)) /\
  (kind wheel03 = Pointer.Scroll /\
   Drag.step metric1 Horizontal drag_active wheel03 = (drag_active, [wheel03])) /\
  (kind wheel03 = Pointer.Scroll /\
   Scroll.step (env:=sampleEnv) metric1 0 scroll_dragging (set_pointerID wheel03 1) =
   Scroll.step (env:=sampleEnv) metric1 0 scroll_dragging wheel03).
Proof.
  assert (H1 : pointerID release2 <> Click.pid click_pressed) by discriminate.
  assert (H2 : kind release2 <> Cancel) by discriminate.
  assert (H3 : pointerID release2 <> Drag.pid drag_active) by discriminate.
  assert (H4 : kind release2 = Press \/ kind release2 = Pointer.Drag \/ kind release2 = Release)
    by (right; right; reflexivity).
  assert (H5 : pointerID drag2 <> Scroll.pid scroll_dragging) by discriminate.
  assert (H6 : kind drag2 = Press \/ kind drag2 = Pointer.Drag \/ kind drag2 = Release)
    by (right; left; reflexivity).
  split; [|split; [|split; [|split]]].
  - split; [reflexivity|]. split; [exact H1|]. split; [exact H2|].
    exact (proj1 owned_pointer_filter click_pressed release2 eq_refl H1 H2).
  - split; [reflexivity|]. split; [exact H3|]. split; [exact H4|].
    destruct (proj1 (proj2 owned_pointer_filter) metric1 Horizontal drag_active release2
                eq_refl H3 H4) as [Hs [Hr _]].
    split; [exact Hs | exact (Hr eq_refl)].
  - split; [reflexivity|]. split; [exact H5|]. split; [exact H6|].
    exact (proj1 (proj2 (proj2 owned_pointer_filter)) sampleEnv metric1 0 scroll_dragging
             drag2 eq_refl H5 H6).
  - split; [reflexivity|].
    exact (proj1 (proj2 (proj2 (proj2 owned_pointer_filter))) metric1 Horizontal
             drag_active wheel03 eq_refl).
  - split; [reflexivity|].
    exact (proj2 (proj2 (proj2 (proj2 owned_pointer_filter))) sampleEnv metric1 0
             scroll_dragging wheel03 1 eq_refl).
Defined.

(** [scroll_release_ungated] at a [Release] of pointer 1 after its drag
    has ended: the retained samples [0] and [10] give distance 10 beyond
    the slop 3, and a fling with velocity 10 is started again; a wheel
    event leaves the estimator alone. *)
Lemma scroll_release_ungated_witness :
  kind release1 = Release /\ Scroll.dragging scroll_released = false /\
  Scroll.pid scroll_released = pointerID release1 /\
  (let fling := @Scroll.Estimate_of sampleEnv (Scroll.estimator scroll_released) in
   let slop := F32.of_int (Dp metric1 touchSlop) in
   Scroll.step (env:=sampleEnv) metric1 0 scroll_released release1 =
     (@Scroll.mkScroll sampleEnv false (Scroll.axis scroll_released)
        (Scroll.estimator scroll_released)
        (if F32.ltb (Distance fling) (F32.neg slop) || F32.ltb slop (Distance fling)
         then @Scroll.Start sampleEnv (Scroll.flinger scroll_released) metric1 0
                (Velocity fling)
         else Scroll.flinger scroll_released)
        (Scroll.pid scroll_released) false (Scroll.last scroll_released)
        (Scroll.scroll scroll_released), 0)) /\
  Scroll.flinger (fst (Scroll.step (env:=sampleEnv) metric1 0 scroll_released release1))
    = [F32.of_int 10] /\
  kind wheel03 <> Press /\
  (Scroll.estimator (fst (Scroll.step (env:=sampleEnv) metric1 0 scroll_released wheel03))
     = Scroll.estimator scroll_released \/
   Scroll.estimator (fst (Scroll.step (env:=sampleEnv) metric1 0 scroll_released wheel03))
     = @Scroll.Sample sampleEnv (Scroll.estimator scroll_released) (time wheel03)
         (Scroll.val scroll_released (position wheel03))).
Proof.
  assert (Hw : kind wheel03 <> Press) by discriminate.
  split; [reflexivity|]. split; [reflexivity|]. split; [reflexivity|].
  split.
  - exact (proj1 (ScrollFacts.scroll_release_ungated sampleEnv metric1 0) scroll_released
             release1 eq_refl eq_refl).
  - split; [vm_compute; reflexivity|]. split; [exact Hw|].
    exact (proj2 (ScrollFacts.scroll_release_ungated sampleEnv metric1 0) scroll_released
             wheel03 Hw).
Defined.

(** ** Witnesses of the further properties *)

(** [click_numclicks_positive] from the zero [Click] over a press and a
    release of pointer 7. *)
Lemma click_numclicks_positive_witness :
  0 <= Click.clicks Click.zero /\
  (Click.pressed Click.zero = true -> 1 <= Click.clicks Click.zero) /\
  Click.clicks Click.zero + Z.of_nat (List.length [EvPointer press7; EvPointer release7]) < 2 ^ 63 /\
  Forall (fun ev => Click.Kind ev = Click.KindCancel \/ 1 <= Click.NumClicks ev)
    (snd (Click.Update Click.zero [EvPointer press7; EvPointer release7])) /\
  0 <= Click.clicks (fst (Click.Update Click.zero [EvPointer press7; EvPointer release7])) /\
  (Click.pressed (fst (Click.Update Click.zero [EvPointer press7; EvPointer release7])) = true ->
   1 <= Click.clicks (fst (Click.Update Click.zero [EvPointer press7; EvPointer release7]))).
Proof.
  assert (H0 : 0 <= Click.clicks Click.zero) by (cbn; lia).
  assert (H1 : Click.pressed Click.zero = true -> 1 <= Click.clicks Click.zero)
    by discriminate.
  assert (H2 : Click.clicks Click.zero +
               Z.of_nat (List.length [EvPointer press7; EvPointer release7]) < 2 ^ 63)
    by (cbn; lia).
  split; [exact H0|]. split; [exact H1|]. split; [exact H2|].
  exact (ClickFacts.click_numclicks_positive Click.zero [EvPointer press7; EvPointer release7]
           H0 H1 H2).
Defined.

(** [hover_single_pointer] while pointer 3 is inside: an [Enter] of
    pointer 4 changes nothing, and a [Leave] of pointer 3 ends the hover. *)
Lemma hover_single_pointer_witness :
  Hover.entered (Hover.mkHover true 3) = true /\
  pointerID enter4 <> Hover.pid (Hover.mkHover true 3) /\
  Hover.step (Hover.mkHover true 3) enter4 = Hover.mkHover true 3 /\
  Hover.step (Hover.mkHover true 3) (pev Leave Mouse 3 Shared 0 0 1 1) =
    Hover.mkHover false 3.
Proof.
  assert (Hn : pointerID enter4 <> Hover.pid (Hover.mkHover true 3)) by discriminate.
  split; [reflexivity|]. split; [exact Hn|]. split.
  - exact (proj1 (HoverFacts.hover_single_pointer (Hover.mkHover true 3) enter4 eq_refl) Hn).
  - exact (proj2 (HoverFacts.hover_single_pointer (Hover.mkHover true 3)
                    (pev Leave Mouse 3 Shared 0 0 1 1) eq_refl) eq_refl (or_introl eq_refl)).
Defined.

(** [hover_enter_holds] for an [Enter] of pointer 3 followed by an
    [Enter] and a [Leave] of pointer 4. *)
Lemma hover_enter_holds_witness :
  kind enter3 = Enter /\
  (Hover.entered hover0 = false \/ Hover.pid hover0 = pointerID enter3) /\
  forallb (SeqSpec.keeps_pointer (pointerID enter3)) [EvPointer enter4; EvPointer leave4] = true /\
  Hover.Update hover0 [EvPointer enter3; EvPointer enter4; EvPointer leave4] =
    (Hover.mkHover true (pointerID enter3), true).
Proof.
  assert (Hh : Hover.entered hover0 = false \/ Hover.pid hover0 = pointerID enter3)
    by (left; reflexivity).
  split; [reflexivity|]. split; [exact Hh|]. split; [reflexivity|].
  exact (HoverFacts.hover_enter_holds hover0 enter3 [EvPointer enter4; EvPointer leave4]
           eq_refl Hh eq_refl).
Defined.

(** [drag_grab_only_dragging] from the zero [Drag] over a press and a
    move far beyond the slop, which sets [grab]. *)
Lemma drag_grab_only_dragging_witness :
  implb (Drag.grab Drag.zero) (Drag.dragging Drag.zero) = true /\
  Drag.grab (fst (Drag.Update metric1 Drag.zero [EvPointer press1; EvPointer drag1_far_y]
                    Horizontal)) = true /\
  implb (Drag.grab (fst (Drag.Update metric1 Drag.zero
                           [EvPointer press1; EvPointer drag1_far_y] Horizontal)))
        (Drag.dragging (fst (Drag.Update metric1 Drag.zero
                               [EvPointer press1; EvPointer drag1_far_y] Horizontal))) = true.
Proof.
  split; [reflexivity|]. split; [vm_compute; reflexivity|].
  exact (DragMore.drag_grab_only_dragging metric1 Drag.zero
           [EvPointer press1; EvPointer drag1_far_y] Horizontal eq_refl).
Defined.

(** [draggable_pos_offset] for a press at [(10,10)] and moves to
    [(11,12)] and [(40,55)]: [Pos] is [(30,45)]. *)
Lemma draggable_pos_offset_witness :
  Drag.dragging (Draggable.drag draggable0) = false /\ kind press1 = Press /\
  (buttons press1 = ButtonPrimary \/ source press1 = Touch) /\
  [drag1_small; drag1_far_y] <> [] /\
  Forall (fun e => kind e = Pointer.Drag /\ pointerID e = pointerID press1)
    [drag1_small; drag1_far_y] /\
  Draggable.Dragging (fst (Draggable.Update metric1 draggable0
    (map EvPointer [press1; drag1_small; drag1_far_y]) [])) = true /\
  Draggable.click (fst (Draggable.Update metric1 draggable0
    (map EvPointer [press1; drag1_small; drag1_far_y]) [])) = position press1 /\
  Draggable.Pos (fst (Draggable.Update metric1 draggable0
    (map EvPointer [press1; drag1_small; drag1_far_y]) [])) =
    Point_Sub (position (last [drag1_small; drag1_far_y] press1)) (position press1) /\
  Draggable.Pos (fst (Draggable.Update metric1 draggable0
    (map EvPointer [press1; drag1_small; drag1_far_y]) [])) =
    mkPoint (F32.of_int 30) (F32.of_int 45).
Proof.
  assert (Hb : buttons press1 = ButtonPrimary \/ source press1 = Touch) by (right; reflexivity).
  assert (Hne : [drag1_small; drag1_far_y] <> []) by discriminate.
  assert (Hq : Forall (fun e => kind e = Pointer.Drag /\ pointerID e = pointerID press1)
                 [drag1_small; drag1_far_y])
    by (repeat constructor).
  destruct (DragMore.draggable_pos_offset metric1 draggable0 press1 [drag1_small; drag1_far_y]
              [] eq_refl eq_refl Hb Hne Hq) as [H1 [H2 H3]].
  split; [reflexivity|]. split; [reflexivity|]. split; [exact Hb|]. split; [exact Hne|].
  split; [exact Hq|]. split; [exact H1|]. split; [exact H2|]. split; [exact H3|].
  vm_compute. reflexivity.
Defined.

(** [draggable_release_other] for a [Release] of pointer 2 while pointer
    1 drags. *)
Lemma draggable_release_other_witness :
  Draggable.Dragging draggable_active = true /\
  (kind release2 = Release \/ kind release2 = Cancel) /\
  pointerID release2 <> Drag.pid (Draggable.drag draggable_active) /\
  Drag.pressed (Draggable.drag (fst (Draggable.Update metric1 draggable_active
                                       [EvPointer release2] []))) = false /\
  Draggable.Dragging (fst (Draggable.Update metric1 draggable_active [EvPointer release2] []))
    = true /\
  Draggable.Pos (fst (Draggable.Update metric1 draggable_active [EvPointer release2] []))
    = Draggable.Pos draggable_active.
Proof.
  assert (Hk : kind release2 = Release \/ kind release2 = Cancel) by (left; reflexivity).
  assert (Hp : pointerID release2 <> Drag.pid (Draggable.drag draggable_active))
    by discriminate.
  split; [reflexivity|]. split; [exact Hk|]. split; [exact Hp|].
  exact (DragMore.draggable_release_other metric1 draggable_active release2 [] eq_refl Hk Hp).
Defined.

(** [scroll_grab_only_dragging] for a drag at the slop, which sets
    [grab] while dragging. *)
Lemma scroll_grab_only_dragging_witness :
  implb (Scroll.grab scroll_dragging) (Scroll.dragging scroll_dragging) = true /\
  Scroll.grab (fst (Scroll.Update (env:=sampleEnv) metric1 scroll_dragging
                      [EvPointer drag1_at0] 0 Horizontal)) = true /\
  implb (Scroll.grab (fst (Scroll.Update (env:=sampleEnv) metric1 scroll_dragging
                             [EvPointer drag1_at0] 0 Horizontal)))
        (Scroll.dragging (fst (Scroll.Update (env:=sampleEnv) metric1 scroll_dragging
                                 [EvPointer drag1_at0] 0 Horizontal))) = true.
Proof.
  split; [reflexivity|]. split; [vm_compute; reflexivity|].
  exact (ScrollMore.scroll_grab_only_dragging sampleEnv metric1 scroll_dragging
           [EvPointer drag1_at0] 0 Horizontal eq_refl).
Defined.

(** [scroll_state_steps] with the sample environment: a touch press of
    an idle [Scroll] gives [StateDragging], and a [Cancel] of a dragging
    one does not. *)
Lemma scroll_state_steps_witness :
  sampleActive (@Scroll.animation0 sampleEnv) = false /\
  Scroll_State sampleActive (fst (Scroll.step (env:=sampleEnv) metric1 0 scroll0 press1))
    = StateDragging /\
  Scroll_State sampleActive (fst (Scroll.step (env:=sampleEnv) metric1 0 scroll_dragging cancel2))
    <> StateDragging.
Proof.
  split; [reflexivity|]. split.
  - exact (proj1 (ScrollMore.scroll_state_steps sampleEnv sampleActive metric1 0 scroll0 press1
                    eq_refl) eq_refl eq_refl (or_introl eq_refl)).
  - exact (proj2 (ScrollMore.scroll_state_steps sampleEnv sampleActive metric1 0
                    scroll_dragging cancel2 eq_refl) (or_introl eq_refl)).
Defined.

(** [enum_layout_registers] for the keys ["a"] and ["b"] and the new
    key ["c"], after a click on ["b"]. *)
Lemma enum_layout_registers_witness :
  NoDup (map Enum.key (Enum.keys enum_ab)) /\
  NoDup (map Enum.key (Enum.keys (Enum.Layout (Some click_b) enum_ab "c"))) /\
  (exists st, Enum.index (Enum.keys (Enum.Layout (Some click_b) enum_ab "c")) "c" = Some st /\
              Enum.key st = "c"%string) /\
  map Enum.key (Enum.keys (Enum.Layout (Some click_b) enum_ab "c")) = ["a"; "b"; "c"]%string /\
  last (Enum.keys (Enum.Layout (Some click_b) enum_ab "c")) (Enum.mkEnumKey "" Click.zero) =
    Enum.mkEnumKey "c" Click.zero.
Proof.
  assert (Hnd : NoDup (map Enum.key (Enum.keys enum_ab))).
  { cbn. constructor; [intros [H|[]]; discriminate|].
    constructor; [intros []|constructor]. }
  destruct (EnumFacts.enum_layout_registers (Some click_b) enum_ab "c" Hnd) as [H1 [H2 [H3 H4]]].
  split; [exact Hnd|]. split; [exact H1|]. split; [exact H2|].
  split; [rewrite H3; reflexivity|].
  rewrite H4. vm_compute. reflexivity.
Defined.
